(** * Socionics reference site: relation classifier, datasets and scraper fetch policy

    A shallow embedding of
    - [classifyRelation] and [RELATION_COLORS] (src/App.jsx, as recorded in
      .qwen/QWEN.md),
    - [TYPE_CODES], [TYPE_INFO], [DUAL_PAIRS], [buildRelations] (src/data/loaders.js),
    - [fetchWithRetry] and the type-acquisition part of [scrapeAll]
      (scripts/scrape.mjs),
    together with the properties stated about them. *)

From Stdlib Require Import ZArith Lia List Bool Ascii.
From stdpp Require Import gmap strings list pretty.
From Equations Require Import Equations.

Local Open Scope Z_scope.
Local Open Scope string_scope.

(** ** JavaScript primitives used by the sources *)

Module Js.

(** Outcome of evaluating a piece of JavaScript: a value, or a thrown error
    carrying its message. *)
Inductive completion (A : Type) : Type :=
| Normal (v : A)
| Throw (msg : string).
Arguments Normal {A} v.
Arguments Throw {A} msg.

#[global] Instance completion_ret : MRet completion := @Normal.
#[global] Instance completion_bind : MBind completion :=
  fun A B f m => match m with Normal v => f v | Throw e => Throw e end.

(** [!x] is false exactly on objects; [null] and [undefined] are [None]. *)
Definition truthy {A : Type} (x : option A) : bool :=
  match x with Some _ => true | None => false end.

(** Reading a property of [null] or [undefined] throws a TypeError. *)
Definition deref {A : Type} (x : option A) : completion A :=
  match x with
  | Some o => Normal o
  | None => Throw "TypeError: cannot read properties of null or undefined"
  end.

(** [x || y] on values that are strings or [undefined]: the empty string and
    [undefined] are falsy. *)
Definition or (x y : option string) : option string :=
  match x with
  | Some s => if String.eqb s "" then y else x
  | None => y
  end.

(** [Array.prototype.sort] with the default comparator on an array of
    strings: a stable sort by code-unit order. *)
Fixpoint insert (x : string) (l : list string) : list string :=
  match l with
  | [] => [x]
  | y :: l' => if String.ltb x y then x :: y :: l' else y :: insert x l'
  end.

Definition sort (l : list string) : list string :=
  fold_left (fun acc x => insert x acc) l [].

(** [Array.prototype.join]. *)
Definition join (sep : string) (l : list string) : string :=
  String.concat sep l.

(** [Array.prototype.indexOf]: position of the first occurrence, [-1] when
    there is none. *)
Fixpoint indexOf_from (i : Z) (l : list string) (x : string) : Z :=
  match l with
  | [] => -1
  | y :: l' => if String.eqb y x then i else indexOf_from (i + 1) l' x
  end.

Definition indexOf (l : list string) (x : string) : Z := indexOf_from 0 l x.

(** *** Strings

    Strings are byte strings; case conversion touches the ASCII letters only
    and white space is ASCII white space.  On text in ASCII ([is_ascii])
    this is what JavaScript does; on other text JavaScript also converts
    letters outside ASCII, so a property that rests on the result of a case
    conversion is stated for ASCII strings. *)

Definition ascii_char (c : Ascii.ascii) : bool := (Ascii.N_of_ascii c <? 128)%N.

Fixpoint is_ascii (s : string) : bool :=
  match s with
  | EmptyString => true
  | String c s' => ascii_char c && is_ascii s'
  end.

Definition is_upper (c : Ascii.ascii) : bool :=
  let n := Ascii.N_of_ascii c in (65 <=? n)%N && (n <=? 90)%N.

Definition is_lower (c : Ascii.ascii) : bool :=
  let n := Ascii.N_of_ascii c in (97 <=? n)%N && (n <=? 122)%N.

Definition lower_char (c : Ascii.ascii) : Ascii.ascii :=
  if is_upper c then Ascii.ascii_of_N (Ascii.N_of_ascii c + 32) else c.

Definition upper_char (c : Ascii.ascii) : Ascii.ascii :=
  if is_lower c then Ascii.ascii_of_N (Ascii.N_of_ascii c - 32) else c.

Fixpoint map_chars (f : Ascii.ascii -> Ascii.ascii) (s : string) : string :=
  match s with
  | EmptyString => EmptyString
  | String c s' => String (f c) (map_chars f s')
  end.

(** [String.prototype.toLowerCase] and [toUpperCase]. *)
Definition toLowerCase (s : string) : string := map_chars lower_char s.
Definition toUpperCase (s : string) : string := map_chars upper_char s.

(** [String.prototype.includes]: [q] occurs in [s] at some position. *)
Fixpoint includes (s q : string) : bool :=
  String.prefix q s
  || match s with
     | EmptyString => false
     | String _ s' => includes s' q
     end.

(** [String.prototype.indexOf]: the first position at which [q] occurs in
    [s], [-1] when there is none. *)
Fixpoint str_indexOf (s q : string) : Z :=
  if String.prefix q s then 0
  else match s with
       | EmptyString => -1
       | String _ s' =>
           let r := str_indexOf s' q in
           if (r <? 0)%Z then -1 else r + 1
       end.

(** [s.slice(start)] and [s.slice(start, end)] for indices that are not
    negative. *)
Fixpoint drop (n : nat) (s : string) : string :=
  match n, s with
  | S n', String _ s' => drop n' s'
  | _, _ => s
  end.

Definition slice_from (start : nat) (s : string) : string := drop start s.

Definition slice (start stop : nat) (s : string) : string :=
  String.substring start (stop - start) s.

(** [s.split(sep)] for a separator of one character. *)
Fixpoint split (sep : Ascii.ascii) (s : string) : list string :=
  match s with
  | EmptyString => [EmptyString]
  | String c s' =>
      if Ascii.eqb c sep then EmptyString :: split sep s'
      else match split sep s' with
           | x :: xs => String c x :: xs
           | [] => [String c EmptyString]
           end
  end.

(** A string is truthy when it is not empty; [filter(Boolean)] on strings. *)
Definition nonempty (s : string) : bool := negb (String.eqb s "").

(** Truthiness of a value that is a string or [undefined]. *)
Definition truthy_str (x : option string) : bool :=
  match x with
  | Some s => nonempty s
  | None => false
  end.

Definition is_space (c : Ascii.ascii) : bool :=
  let n := Ascii.N_of_ascii c in
  (n =? 32)%N || ((9 <=? n)%N && (n <=? 13)%N).

Fixpoint trimStart (s : string) : string :=
  match s with
  | String c s' => if is_space c then trimStart s' else s
  | EmptyString => EmptyString
  end.

Fixpoint rev_onto (s acc : string) : string :=
  match s with
  | EmptyString => acc
  | String c s' => rev_onto s' (String c acc)
  end.

Definition rev (s : string) : string := rev_onto s EmptyString.

(** [String.prototype.trim]. *)
Definition trim (s : string) : string := rev (trimStart (rev (trimStart s))).

(** *** Object literals used as tables

    A table [T] written as an object literal, or built with
    [Object.fromEntries] or by assignment to an empty literal, is modelled by
    the finite map of its own entries.  [T[k]] is the entry under [k] when
    there is one; otherwise it is [undefined], unless [k] names a property
    that every object inherits from [Object.prototype], and then it is that
    property. *)
Definition Object_prototype_names : list string :=
  [ "constructor"; "__defineGetter__"; "__defineSetter__"; "hasOwnProperty";
    "__lookupGetter__"; "__lookupSetter__"; "isPrototypeOf";
    "propertyIsEnumerable"; "toString"; "valueOf"; "__proto__";
    "toLocaleString" ].

(** [k] names no inherited property: a lookup of [k] sees own entries only. *)
Definition own_name (k : string) : bool :=
  negb (existsb (String.eqb k) Object_prototype_names).

Inductive property (A : Type) : Type :=
| Own (v : A)
| Inherited
| Undefined.
Arguments Own {A} v.
Arguments Inherited {A}.
Arguments Undefined {A}.

(** [T[k]]. *)
Definition get {A : Type} (T : gmap string A) (k : string) : property A :=
  match T !! k with
  | Some v => Own v
  | None => if own_name k then Undefined else Inherited
  end.

End Js.

Import Js (Normal, Throw).

(** ** The static datasets (src/data/loaders.js) *)

(** One entry of [TYPE_INFO]. *)
Module Info.
Record t : Type := mk {
  fullName : string;
  alias : string;
  quadra : string;
  temperament : string;
  leading : string;
  creative : string;
}.
End Info.

(** A type object as the application receives it: its code, the six
    [TYPE_INFO] fields, and the page-dependent rest. *)
Record TypeRecord : Type := mkTypeRecord {
  code : string;
  fullName : string;
  alias : string;
  quadra : string;
  temperament : string;
  leading : string;
  creative : string;
  overview : string;
  href : string;
  revId : option Z;
  title : option string;
}.

(** One entry of the relations dataset. *)
Module Relation.
Record t : Type := mk {
  a : string;
  b : string;
  name : string;
  summary : string;
}.
End Relation.

(** One entry of the glossary. *)
Module Gloss.
Record t : Type := mk {
  term : string;
  shortDef : string;
}.
End Gloss.

(** One entry of the search index, or one search result; a type entry has a
    code, full name and alias, a glossary entry a term and a definition, and
    only index entries have a haystack. *)
Module Entry.
Record t : Type := mk {
  kind : string;
  id : string;
  code : option string;
  fullName : option string;
  alias : option string;
  term : option string;
  shortDef : option string;
  haystack : option string;
}.
End Entry.

Module Loaders.

Definition TYPE_CODES : list string :=
  [ "ILE"; "SEI"; "LII"; "ESE";
    "SLE"; "IEI"; "LSI"; "EIE";
    "SEE"; "ILI"; "ESI"; "LIE";
    "LSE"; "EII"; "SLI"; "IEE" ].

Definition TYPE_INFO : gmap string Info.t :=
  list_to_map
    [ ("ILE", Info.mk "Intuitive Logical Extravert" "ENTp" "Alpha" "EP" "Ne" "Ti");
      ("SEI", Info.mk "Sensing Ethical Introvert" "ISFp" "Alpha" "IJ" "Si" "Fe");
      ("LII", Info.mk "Logical Intuitive Introvert" "INTj" "Alpha" "IJ" "Ti" "Ne");
      ("ESE", Info.mk "Ethical Sensing Extravert" "ESFj" "Alpha" "EJ" "Fe" "Si");
      ("SLE", Info.mk "Sensing Logical Extravert" "ESTp" "Beta" "EP" "Se" "Ti");
      ("IEI", Info.mk "Intuitive Ethical Introvert" "INFp" "Beta" "IP" "Ni" "Fe");
      ("LSI", Info.mk "Logical Sensing Introvert" "ISTj" "Beta" "IJ" "Ti" "Se");
      ("EIE", Info.mk "Ethical Intuitive Extravert" "ENFj" "Beta" "EJ" "Fe" "Ni");
      ("SEE", Info.mk "Sensing Ethical Extravert" "ESFp" "Gamma" "EP" "Se" "Fi");
      ("ILI", Info.mk "Intuitive Logical Introvert" "INTp" "Gamma" "IP" "Ni" "Te");
      ("ESI", Info.mk "Ethical Sensing Introvert" "ISFj" "Gamma" "IJ" "Fi" "Se");
      ("LIE", Info.mk "Logical Intuitive Extravert" "ENTj" "Gamma" "EJ" "Te" "Ni");
      ("LSE", Info.mk "Logical Sensing Extravert" "ESTj" "Delta" "EJ" "Te" "Si");
      ("EII", Info.mk "Ethical Intuitive Introvert" "INFj" "Delta" "IJ" "Fi" "Ne");
      ("SLI", Info.mk "Sensing Logical Introvert" "ISTp" "Delta" "IP" "Si" "Te");
      ("IEE", Info.mk "Intuitive Ethical Extravert" "ENFp" "Delta" "EP" "Ne" "Fi") ].

Definition TYPE_PAGES : gmap string string :=
  list_to_map
    [ ("ILE", "ILE (ENTp)"); ("SEI", "SEI (ISFp)");
      ("LII", "LII (INTj)"); ("ESE", "ESE (ESFj)");
      ("SLE", "SLE (ESTp)"); ("IEI", "IEI (INFp)");
      ("LSI", "LSI (ISTj)"); ("EIE", "EIE (ENFj)");
      ("SEE", "SEE (ESFp)"); ("ILI", "ILI (INTp)");
      ("ESI", "ESI (ISFj)"); ("LIE", "LIE (ENTj)");
      ("LSE", "LSE (ESTj)"); ("EII", "EII (INFj)");
      ("SLI", "SLI (ISTp)"); ("IEE", "IEE (ENFp)") ].

Definition DUAL_PAIRS : list (string * string) :=
  [ ("ILE", "SEI");
    ("LII", "ESE");
    ("SLE", "IEI");
    ("LSI", "EIE");
    ("SEE", "ILI");
    ("ESI", "LIE");
    ("LSE", "EII");
    ("SLI", "IEE") ].

Definition buildRelations : list Relation.t :=
  map (fun '(a, b) =>
         Relation.mk a b "Duality"
           "Complementary strengths; easy role division; watch for over-reliance on partner's valued elements.")
      DUAL_PAIRS.

Definition buildGlossary : list Gloss.t :=
  [ Gloss.mk "Ne" "Extroverted intuition - possibilities, patterns, divergence.";
    Gloss.mk "Ni" "Introverted intuition - time, trajectories, convergence.";
    Gloss.mk "Se" "Extroverted sensing - force, assertion, control of space.";
    Gloss.mk "Si" "Introverted sensing - comfort, calibration, bodily states.";
    Gloss.mk "Te" "Extroverted logic - efficiency, metrics, execution.";
    Gloss.mk "Ti" "Introverted logic - structure, definitions, consistency.";
    Gloss.mk "Fe" "Extroverted ethics - shared feeling, expression, morale.";
    Gloss.mk "Fi" "Introverted ethics - bonds, values, personal distance." ].

(** [buildSearchEntries(types, glossary)]; an argument that is not an array is
    [None]. *)
Definition buildSearchEntries (types : option (list TypeRecord))
    (glossary : option (list Gloss.t)) : list Entry.t :=
  let entries := [] in
  let entries :=
    match types with
    | Some types =>
        fold_left
          (fun entries t =>
             let hay :=
               Js.toLowerCase
                 (Js.join " " [code t; fullName t; alias t; quadra t;
                               temperament t; leading t; creative t]) in
             entries ++ [Entry.mk "type" (code t) (Some (code t)) (Some (fullName t))
                           (Some (alias t)) None None (Some hay)])%list
          types entries
    | None => entries
    end in
  match glossary with
  | Some glossary =>
      fold_left
        (fun entries g =>
           let hay := Js.toLowerCase (Js.join " " [Gloss.term g; Gloss.shortDef g]) in
           entries ++ [Entry.mk "gloss" (Gloss.term g) None None None
                         (Some (Gloss.term g)) (Some (Gloss.shortDef g)) (Some hay)])%list
        glossary entries
  | None => entries
  end.

(** [extractLeadParagraph]: the paragraphs of the parsed document are given by
    their [textContent] ([None] when it is null); [normalize] is
    [.replace(/\s+/g, " ").trim()]. *)
Definition paragraph_text (normalize : string -> string) (p : option string) : string :=
  match p with
  | Some t => if Js.nonempty t then normalize t else ""
  | None => ""
  end.

Definition extractLeadParagraph (normalize : string -> string)
    (paragraphs : list (option string)) : option string :=
  match List.find (fun p => (60 <=? String.length (paragraph_text normalize p))%nat)
                  paragraphs with
  | Some p => Some (paragraph_text normalize p)
  | None =>
      match List.find (fun p => Js.nonempty (paragraph_text normalize p)) paragraphs with
      | Some p => Some (paragraph_text normalize p)
      | None => None
      end
  end.

End Loaders.

(** A record is canonical when its code is one of [TYPE_CODES] and its six
    descriptive fields are those of [TYPE_INFO] at that code, as in
    [fetchType], [parseType] and [scrapeTypeViaMediaWiki]; the overview, link,
    revision and title depend on the page and are unconstrained. *)
Definition canonical (t : TypeRecord) : Prop :=
  exists i : Info.t,
    code t ∈ Loaders.TYPE_CODES /\
    Loaders.TYPE_INFO !! code t = Some i /\
    fullName t = Info.fullName i /\
    alias t = Info.alias i /\
    quadra t = Info.quadra i /\
    temperament t = Info.temperament i /\
    leading t = Info.leading i /\
    creative t = Info.creative i.

(** ** The relation classifier (src/App.jsx) *)

Module Rel.
(** The object returned by [classifyRelation]. *)
Record t : Type := mk {
  key : string;
  color : option string;
}.
End Rel.

Module App.

Definition RELATION_COLORS : gmap string string :=
  list_to_map
    [ ("Identity", "#475569");
      ("Duality", "#16a34a");
      ("Activation", "#06b6d4");
      ("Mirror", "#6366f1");
      ("Semi-duality", "#14b8a6");
      ("Extinguishment", "#94a3b8");
      ("Conflict", "#ef4444");
      ("Business", "#f97316");
      ("Super-ego", "#eab308");
      ("Other", "#64748b") ].

(** What the caller passes as [duals]: nothing, an object without a callable
    [has], or a [Set] of strings. *)
Inductive DualsArg : Type :=
| DualsMissing
| DualsNoHas
| DualsSet (s : gset string).

(** [new Set(relations.filter(r => r.name === "Duality")
                      .map(r => [r.a, r.b].sort().join("-")))] *)
Definition DUALS_of (relations : list Relation.t) : gset string :=
  list_to_set
    (map (fun r => Js.join "-" (Js.sort [Relation.a r; Relation.b r]))
         (List.filter (fun r => String.eqb (Relation.name r) "Duality") relations)).

Definition DUALS : gset string := DUALS_of Loaders.buildRelations.

Section Flags.
Variables (aType bType : TypeRecord) (duals : DualsArg).

Definition key : string := Js.join "-" (Js.sort [code aType; code bType]).
Definition isIdentity : bool := String.eqb (code aType) (code bType).
Definition isDual : bool :=
  match duals with
  | DualsSet s => bool_decide (key ∈ s)
  | DualsMissing | DualsNoHas => false
  end.
Definition sameQuadra : bool := String.eqb (quadra aType) (quadra bType).
Definition sameTemp : bool := String.eqb (temperament aType) (temperament bType).
Definition sameLead : bool := String.eqb (leading aType) (leading bType).
Definition sameCreative : bool := String.eqb (creative aType) (creative bType).
Definition activator : bool :=
  String.eqb (leading aType) (creative bType) && String.eqb (creative aType) (leading bType).
Definition mirror : bool := sameLead && sameCreative && negb isIdentity.
Definition semiDual : bool :=
  (String.eqb (leading aType) (creative bType) && negb activator)
  || (String.eqb (leading bType) (creative aType) && negb activator).
Definition quadraOrder : list string := ["Alpha"; "Beta"; "Gamma"; "Delta"].
Definition qd : Z :=
  Z.abs (Js.indexOf quadraOrder (quadra aType) - Js.indexOf quadraOrder (quadra bType)).
Definition business : bool :=
  ((qd =? 1)%Z || (qd =? 3)%Z) && negb isDual && negb semiDual.
Definition conflict : bool := (qd =? 2)%Z && negb sameQuadra && negb isDual.
Definition extinguishment : bool :=
  (sameLead && negb isIdentity) || (sameCreative && negb mirror).
Definition superEgo : bool :=
  negb isIdentity && negb isDual && negb sameQuadra && negb activator
  && negb mirror && negb semiDual && negb extinguishment && negb business.
Definition label : string :=
  if isIdentity then "Identity" else
  if isDual then "Duality" else
  if activator then "Activation" else
  if mirror then "Mirror" else
  if semiDual then "Semi-duality" else
  if extinguishment then "Extinguishment" else
  if conflict then "Conflict" else
  if business then "Business" else
  if superEgo then "Super-ego" else "Other".
End Flags.

Definition classifyRelation (aType bType : option TypeRecord) (duals : DualsArg)
  : Js.completion Rel.t :=
  if negb (Js.truthy aType) || negb (Js.truthy bType)
  then Normal (Rel.mk "Other" (RELATION_COLORS !! "Other"))
  else
    a ← Js.deref aType;
    b ← Js.deref bType;
    let label := label a b duals in
    Normal (Rel.mk label (Js.or (RELATION_COLORS !! label) (RELATION_COLORS !! "Other"))).

(** The relation-label enumeration: the keys of [RELATION_COLORS]. *)
Definition RELATION_LABELS : list string :=
  [ "Identity"; "Duality"; "Activation"; "Mirror"; "Semi-duality";
    "Extinguishment"; "Conflict"; "Business"; "Super-ego"; "Other" ].

(** *** Hash routing *)

(** A route object: its name and the parameters it may carry; [None] is an
    absent or [undefined] property. *)
Module Route.
Record t : Type := mk {
  name : string;
  code : option string;
  focus : option string;
  a : option string;
  b : option string;
}.
Definition plain (name : string) : t := mk name None None None None.
End Route.

(** [.replace(/^#\/?/, "")]: a leading hash sign, and a slash just after it,
    are dropped. *)
Definition strip_hash (s : string) : string :=
  match s with
  | String "#"%char (String "/"%char r) => r
  | String "#"%char r => r
  | _ => s
  end.

(** The route names that [hashToRoute] passes through unchanged. *)
Definition PLAIN_ROUTES : list string :=
  ["start"; "types"; "relations"; "theory"; "functions"; "library"; "about"].

Definition hashToRoute (hash : option string) : Route.t :=
  let raw := strip_hash (default "" (Js.or hash (Some ""))) in
  let parts := List.filter Js.nonempty (Js.split "/"%char raw) in
  let root := parts !! 0%nat in
  let a := parts !! 1%nat in
  let b := parts !! 2%nat in
  match root with
  | None => Route.plain "home"
  | Some root =>
      if String.eqb root "" then Route.plain "home"
      else if existsb (String.eqb root) PLAIN_ROUTES then Route.plain root
      else if String.eqb root "type" then
        if Js.truthy_str a
        then Route.mk "type" (Js.toUpperCase <$> a) None None None
        else Route.plain "types"
      else if String.eqb root "glossary" then
        Route.mk "glossary" None a None None
      else if String.eqb root "compare" then
        Route.mk "compare" None None
          (if Js.truthy_str a then Js.toUpperCase <$> a else None)
          (if Js.truthy_str b then Js.toUpperCase <$> b else None)
      else Route.plain "home"
  end.

Definition routeToHash (route : Route.t) : string :=
  let name := Route.name route in
  if String.eqb name "home" then "#/"
  else if String.eqb name "start" then "#/start"
  else if String.eqb name "types" then "#/types"
  else if String.eqb name "type" then
    if Js.truthy_str (Route.code route)
    then "#/type/" +:+ default "" (Route.code route)
    else "#/types"
  else if String.eqb name "relations" then "#/relations"
  else if String.eqb name "theory" then "#/theory"
  else if String.eqb name "functions" then "#/functions"
  else if String.eqb name "glossary" then
    if Js.truthy_str (Route.focus route)
    then "#/glossary/" +:+ default "" (Route.focus route)
    else "#/glossary"
  else if String.eqb name "library" then "#/library"
  else if String.eqb name "about" then "#/about"
  else if String.eqb name "compare" then
    if Js.truthy_str (Route.a route) && Js.truthy_str (Route.b route)
    then "#/compare/" +:+ default "" (Route.a route) +:+ "/"
         +:+ default "" (Route.b route)
    else "#/compare"
  else "#/".

(** The route names for which the application renders a page. *)
Definition ROUTE_NAMES : list string :=
  ["home"; "start"; "types"; "type"; "relations"; "theory"; "functions";
   "compare"; "glossary"; "library"; "about"].

(** *** Search *)

(** The test of the fall-back search on a type and on a glossary entry. *)
Definition type_matches (q : string) (t : TypeRecord) : bool :=
  existsb (fun v => Js.includes (Js.toLowerCase v) q)
          [code t; fullName t; alias t; quadra t; leading t; creative t].

Definition gloss_matches (q : string) (g : Gloss.t) : bool :=
  existsb (fun v => Js.includes (Js.toLowerCase v) q)
          [Gloss.term g; Gloss.shortDef g].

(** The [results] of the search box; [error] is the load error message or
    null, the three datasets are null until loaded, [search] is the index of
    search.json when it could be loaded. *)
Definition results (error : option string) (types : option (list TypeRecord))
    (glossary : option (list Gloss.t)) (relations : option (list Relation.t))
    (search : option (list Entry.t)) (query : string) : list Entry.t :=
  match types, glossary, relations with
  | Some types, Some glossary, Some _ =>
      if Js.truthy_str error then []
      else
        let q := Js.toLowerCase (Js.trim query) in
        if negb (Js.nonempty q) then []
        else
          match search with
          | Some search =>
              let matched :=
                firstn 10
                  (List.filter
                     (fun e => match Entry.haystack e with
                               | Some h => Js.nonempty h && Js.includes h q
                               | None => false
                               end)
                     search) in
              matched
          | None =>
              let fromTypes :=
                map (fun t => Entry.mk "type" (code t) (Some (code t))
                                (Some (fullName t)) (Some (alias t)) None None None)
                    (List.filter (type_matches q) types) in
              let fromGloss :=
                map (fun g => Entry.mk "gloss" (Gloss.term g) None None None
                                (Some (Gloss.term g)) (Some (Gloss.shortDef g)) None)
                    (List.filter (gloss_matches q) glossary) in
              firstn 10 (fromTypes ++ fromGloss)%list
          end
  | _, _, _ => []
  end.

(** [highlight(text, q)] of the search box: [None] when the text is shown as
    it is, else the three pieces around the marked match. *)
Definition highlight (text q : string) : option (string * string * string) :=
  if negb (Js.nonempty q) then None
  else
    let idx := Js.str_indexOf (Js.toLowerCase text) (Js.toLowerCase q) in
    if (idx =? -1)%Z then None
    else
      let before := Js.slice 0 (Z.to_nat idx) text in
      let match_ := Js.slice (Z.to_nat idx) (Z.to_nat idx + String.length q) text in
      let after := Js.slice_from (Z.to_nat idx + String.length q) text in
      Some (before, match_, after).

(** *** The search box: keyboard selection *)

Record TopBarState : Type := mkTopBarState {
  selected : Z;
  query : string;
}.

(** [results[i]] for a number [i]. *)
Definition item_at {A : Type} (l : list A) (i : Z) : option A :=
  if (i <? 0)%Z then None else l !! Z.to_nat i.

(** [onKeyDown]: the new state, and the item handed to [onResult] if any. *)
Definition onKeyDown (results : list Entry.t) (key : string) (st : TopBarState)
  : TopBarState * option Entry.t :=
  if (length results =? 0)%nat then (st, None)
  else if String.eqb key "ArrowDown" then
    (mkTopBarState (Z.min (selected st + 1) (Z.of_nat (length results) - 1)) (query st),
     None)
  else if String.eqb key "ArrowUp" then
    (mkTopBarState (Z.max (selected st - 1) 0) (query st), None)
  else if String.eqb key "Enter" then
    let item :=
      match item_at results (selected st) with
      | Some item => Some item
      | None => results !! 0%nat
      end in
    (st, item)
  else if String.eqb key "Escape" then (mkTopBarState (selected st) "", None)
  else (st, None).

(** [onResult] as the application passes it to the top bar: the route that
    [navigate] is called with for a chosen result, if any; [navigate] makes
    it the current route and writes [routeToHash] of it to the address bar,
    from which the hash listener reads the route again. *)
Definition onResult (r : Entry.t) : option Route.t :=
  if String.eqb (Entry.kind r) "type" then
    Some (Route.mk "type" (Some (Entry.id r)) None None None)
  else if String.eqb (Entry.kind r) "gloss" then
    Some (Route.mk "glossary" None (Some (Entry.id r)) None None)
  else None.

(** *** Lookup tables built from the types *)

(** [Object.fromEntries(types.map(t => [t.code, t]))]: a later record
    replaces an earlier one with the same code. *)
Definition byCode (types : list TypeRecord) : gmap string TypeRecord :=
  fold_left (fun m t => <[code t := t]> m) types ∅.

(** [TypeDetail]: what the page takes as its type,
    [byCode[code] ?? types[0]]: a record, an inherited property of the table,
    which is no record, or [undefined]. *)
Definition TypeDetail_t (types : list TypeRecord) (code : string)
  : Js.property TypeRecord :=
  match Js.get (byCode types) code with
  | Js.Own t => Js.Own t
  | Js.Inherited => Js.Inherited
  | Js.Undefined =>
      match types !! 0%nat with
      | Some t => Js.Own t
      | None => Js.Undefined
      end
  end.

(** [types.reduce((acc, type) => { if (!acc[k]) acc[k] = [];
    acc[k].push(type); return acc; }, {})] with [k] the value of [key] on the
    type; under an inherited name [acc[k]] is an object without [push]. *)
Definition groupBy (key : TypeRecord -> string) (types : list TypeRecord)
  : Js.completion (gmap string (list TypeRecord)) :=
  fold_left
    (fun acc t =>
       acc ← acc;
       match Js.get acc (key t) with
       | Js.Own g => Normal (<[key t := (g ++ [t])%list]> acc)
       | Js.Undefined => Normal (<[key t := [t]]> acc)
       | Js.Inherited => Throw "TypeError: acc[k].push is not a function"
       end)
    types (Normal ∅).

Definition typesByLeadingFunction := groupBy leading.
Definition typesByCreativeFunction := groupBy creative.

(** *** The dual of a type, two ways *)

(** [DualityList]: the partner of [self] in the component's own table of
    pairs, if there is one. *)
Definition DualityList_pairs : list (string * string) :=
  [ ("ILE", "SEI"); ("LII", "ESE"); ("SLE", "IEI"); ("LSI", "EIE");
    ("SEE", "ILI"); ("ESI", "LIE"); ("LSE", "EII"); ("SLI", "IEE") ].

Definition DualityList_other (self : string) : option string :=
  match List.find (fun '(a, b) => String.eqb a self || String.eqb b self)
                  DualityList_pairs with
  | Some (a, b) => Some (if String.eqb a self then b else a)
  | None => None
  end.

(** [Array.from(duals)] for the set built from the relations: its keys in
    insertion order, each once. *)
Fixpoint dedup_keys (seen l : list string) : list string :=
  match l with
  | [] => []
  | k :: l' =>
      if existsb (String.eqb k) seen then dedup_keys seen l'
      else k :: dedup_keys (k :: seen) l'
  end.

Definition DUALS_in_order (relations : list Relation.t) : list string :=
  dedup_keys []
    (map (fun r => Js.join "-" (Js.sort [Relation.a r; Relation.b r]))
         (List.filter (fun r => String.eqb (Relation.name r) "Duality") relations)).

(** [TypeDetail]: the code found next to [code] in the first key that
    contains it. *)
Definition TypeDetail_dualCode (duals : list string) (code : string) : option string :=
  match List.find (fun pair => Js.includes pair code) duals with
  | Some dualPair =>
      if Js.nonempty dualPair
      then List.find (fun c => negb (String.eqb c code)) (Js.split "-" dualPair)
      else None
  | None => None
  end.

(** *** The development smoke tests on the dual keys *)

(** The two assertions [runDevTests] makes on a key of [DUALS]: it splits in
    two at the hyphen, and its parts are in sorted order. *)
Definition devtest_dual_key (k : string) : bool :=
  let parts := Js.split "-" k in
  (length parts =? 2)%nat && String.eqb (Js.join "-" (Js.sort parts)) k.

End App.

(** ** The scraper (scripts/scrape.mjs)

    The run is modelled by explicit state passing over the trace of what it
    does to the outside world (requests, sleeps, warnings).  The network is an
    oracle: what happens to the [n]-th request of the run when it goes to a
    given URL.  Numbers are idealised as integers and strings as byte strings;
    the files written at the end of [scrapeAll] are outside the model. *)

Module Scraper.

Definition TYPE_CODES : list string :=
  [ "ILE"; "SEI"; "LII"; "ESE";
    "SLE"; "IEI"; "LSI"; "EIE";
    "SEE"; "ILI"; "ESI"; "LIE";
    "LSE"; "EII"; "SLI"; "IEE" ].

Definition TYPE_PAGES : gmap string string :=
  list_to_map
    [ ("ILE", "ILE (ENTp)"); ("SEI", "SEI (ISFp)");
      ("LII", "LII (INTj)"); ("ESE", "ESE (ESFj)");
      ("SLE", "SLE (ESTp)"); ("IEI", "IEI (INFp)");
      ("LSI", "LSI (ISTj)"); ("EIE", "EIE (ENFj)");
      ("SEE", "SEE (ESFp)"); ("ILI", "ILI (INTp)");
      ("ESI", "ESI (ISFj)"); ("LIE", "LIE (ENTj)");
      ("LSE", "LSE (ESTj)"); ("EII", "EII (INFj)");
      ("SLI", "SLI (ISTp)"); ("IEE", "IEE (ENFp)") ].

Definition TYPE_INFO : gmap string Info.t :=
  list_to_map
    [ ("ILE", Info.mk "Intuitive Logical Extravert" "ENTp" "Alpha" "EP" "Ne" "Ti");
      ("SEI", Info.mk "Sensing Ethical Introvert" "ISFp" "Alpha" "IJ" "Si" "Fe");
      ("LII", Info.mk "Logical Intuitive Introvert" "INTj" "Alpha" "IJ" "Ti" "Ne");
      ("ESE", Info.mk "Ethical Sensing Extravert" "ESFj" "Alpha" "EJ" "Fe" "Si");
      ("SLE", Info.mk "Sensing Logical Extravert" "ESTp" "Beta" "EP" "Se" "Ti");
      ("IEI", Info.mk "Intuitive Ethical Introvert" "INFp" "Beta" "IP" "Ni" "Fe");
      ("LSI", Info.mk "Logical Sensing Introvert" "ISTj" "Beta" "IJ" "Ti" "Se");
      ("EIE", Info.mk "Ethical Intuitive Extravert" "ENFj" "Beta" "EJ" "Fe" "Ni");
      ("SEE", Info.mk "Sensing Ethical Extravert" "ESFp" "Gamma" "EP" "Se" "Fi");
      ("ILI", Info.mk "Intuitive Logical Introvert" "INTp" "Gamma" "IP" "Ni" "Te");
      ("ESI", Info.mk "Ethical Sensing Introvert" "ISFj" "Gamma" "IJ" "Fi" "Se");
      ("LIE", Info.mk "Logical Intuitive Extravert" "ENTj" "Gamma" "EJ" "Te" "Ni");
      ("LSE", Info.mk "Logical Sensing Extravert" "ESTj" "Delta" "EJ" "Te" "Si");
      ("EII", Info.mk "Ethical Intuitive Introvert" "INFj" "Delta" "IJ" "Fi" "Ne");
      ("SLI", Info.mk "Sensing Logical Introvert" "ISTp" "Delta" "IP" "Si" "Te");
      ("IEE", Info.mk "Intuitive Ethical Extravert" "ENFp" "Delta" "EP" "Ne" "Fi") ].

Definition DUAL_PAIRS : list (string * string) :=
  [ ("ILE", "SEI"); ("LII", "ESE"); ("SLE", "IEI"); ("LSI", "EIE");
    ("SEE", "ILI"); ("ESI", "LIE"); ("LSE", "EII"); ("SLI", "IEE") ].

Definition dualKey (a b : string) : string := Js.join "-" (Js.sort [a; b]).

(** *** The outside world *)

(** A response as far as the scraper looks at it. *)
Record Response : Type := mkResponse {
  ok : bool;
  status : Z;
  body : string;
}.

(** What the network does with one request: it answers after some
    milliseconds, fails after some milliseconds, or never does either. *)
Inductive Network : Type :=
| Responds (after : Z) (r : Response)
| Fails (after : Z) (msg : string)
| Hangs.

Inductive Event : Type :=
| Request (url : string) (timeoutMs : Z)
| Sleep (ms : Z)
| Warn (msg : string).

(** Number of requests made so far. *)
Definition requests (tr : list Event) : nat :=
  length (List.filter (fun e => match e with Request _ _ => true | _ => false end) tr).

(** *** Runs: a trace threaded through, and a value or a thrown error *)

Definition Run (A : Type) : Type := list Event -> Js.completion A * list Event.

#[global] Instance Run_ret : MRet Run := fun A v tr => (Normal v, tr).
#[global] Instance Run_bind : MBind Run :=
  fun A B f m tr =>
    match m tr with
    | (Normal v, tr') => f v tr'
    | (Throw e, tr') => (Throw e, tr')
    end.

Definition throw {A : Type} (msg : string) : Run A := fun tr => (Throw msg, tr).

(** [try { m } catch (e) { h e }], on the error's message. *)
Definition catch {A : Type} (m : Run A) (h : string -> Run A) : Run A :=
  fun tr =>
    match m tr with
    | (Normal v, tr') => (Normal v, tr')
    | (Throw e, tr') => h e tr'
    end.

Definition emit (e : Event) : Run unit := fun tr => (Normal tt, (tr ++ [e])%list).
Definition delay (ms : Z) : Run unit := emit (Sleep ms).
Definition console_warn (msg : string) : Run unit := emit (Warn msg).
Definition lift {A : Type} (c : Js.completion A) : Run A := fun tr => (c, tr).

(** *** MediaWiki answers, as far as they are read *)

Record MwError : Type := mkMwError {
  info : option string;
  error_code : option string;
}.

Record MwParsed : Type := mkMwParsed {
  text : option string;
  revid : option Z;
  displaytitle : option string;
}.

Record MwJson : Type := mkMwJson {
  error : option MwError;
  parse : option MwParsed;
}.

(** The options object of [fetchWithRetry]; an absent field takes its
    default. *)
Record Options : Type := mkOptions {
  timeoutMs : option Z;
  retries : option Z;
}.

Definition no_options : Options := mkOptions None None.

(** The object [scrapeAll] has in hand when it starts writing files. *)
Record Scraped : Type := mkScraped {
  types : list TypeRecord;
  usedSource : string;
  relations : list Relation.t;
}.

Definition inspect {A : Type} (x : A) : { y : A | x = y } := exist _ x eq_refl.

Section Run.
(** The network oracle: the behaviour met by the [n]-th request of the run
    (counting from 0) when it is sent to [url]. *)
Variable net : string -> nat -> Network.
(** [process.env]. *)
Variable env : gmap string string.
(** Library functions: [Response.json], [URLSearchParams.toString],
    [encodeURIComponent], and the cheerio queries of
    [extractLeadParagraphFromHtml] and [parseType]. *)
Variable json : string -> Js.completion (option MwJson).
Variable URLSearchParams_toString : list (string * string) -> string.
Variable encodeURIComponent : string -> string.
Variable lead_paragraph : string -> string.
Variable first_paragraph : string -> string.
Variable collapse_spaces : string -> string.

(** [fetch(url, { signal })] with [controller.abort()] scheduled after
    [timeoutMs]: whatever arrives before the timer wins, otherwise the
    request is aborted. *)
Definition fetch (url : string) (timeoutMs : Z) : Run Response :=
  fun tr =>
    let tr' := (tr ++ [Request url timeoutMs])%list in
    match net url (requests tr) with
    | Responds after r =>
        if (after <? timeoutMs)%Z then (Normal r, tr')
        else (Throw "This operation was aborted", tr')
    | Fails after msg =>
        if (after <? timeoutMs)%Z then (Throw msg, tr')
        else (Throw "This operation was aborted", tr')
    | Hangs => (Throw "This operation was aborted", tr')
    end.

(** The body of the [try] block of [fetchWithRetry]. *)
Definition attemptFetch (url : string) (timeoutMs : Z) : Run Response :=
  res ← fetch url timeoutMs;
  if negb (ok res) then throw ("HTTP " +:+ pretty (status res))
  else mret res.

(** The [while (true)] loop of [fetchWithRetry], entered with the current
    value of [attempt]. *)
Equations? fetchLoop (url : string) (timeoutMs retries attempt : Z)
    (tr : list Event) : Js.completion Response * list Event
  by wf (Z.to_nat (retries + 2 - attempt)) lt :=
fetchLoop url timeoutMs retries attempt tr
  with attemptFetch url timeoutMs tr := {
  | (Normal res, tr') => (Normal res, tr')
  | (Throw e, tr') with inspect (attempt + 1 >? retries + 1)%Z := {
      | exist _ true _ =>
          (Throw ("Failed to fetch " +:+ url +:+ ": " +:+ e), tr')
      | exist _ false _ =>
          fetchLoop url timeoutMs retries (attempt + 1)
            (tr' ++ [Sleep (400 * (attempt + 1))])%list } }.
Proof. lia. Qed.

Definition fetchWithRetry (url : string) (opts : Options) : Run Response :=
  let timeoutMs := default 8000 (timeoutMs opts) in
  let retries := default 2 (retries opts) in
  fetchLoop url timeoutMs retries 0.

(** [load] returns the page text handed to cheerio. *)
Definition load (url : string) : Run string :=
  res ← fetchWithRetry url no_options;
  mret (body res).

Definition MW_API : string :=
  default "" (Js.or (env !! "WIKISOCION_API") (Some "https://wikisocion.net/w/api.php")).
Definition MW_PAGE_BASE : string :=
  default "" (Js.or (env !! "WIKISOCION_PAGE_BASE")
                    (Some "https://wikisocion.net/en/index.php?title=")).

Definition mwGet (params : list (string * string)) : Run (option MwJson) :=
  let q := URLSearchParams_toString
             ([("format", "json"); ("origin", "*")] ++ params)%list in
  let url := MW_API +:+ "?" +:+ q in
  res ← fetchWithRetry url no_options;
  j ← lift (json (body res));
  match j with
  | Some {| error := Some e |} =>
      throw ("MediaWiki API error: "
             +:+ default "undefined" (Js.or (info e) (error_code e)))
  | _ => mret j
  end.

Definition mwParsePage (title : string) : Run (option MwParsed) :=
  j ← mwGet [ ("action", "parse"); ("page", title);
              ("prop", "text|sections|revid|displaytitle");
              ("formatversion", "2"); ("redirects", "true");
              ("disableeditsection", "true") ];
  mret (j ≫= parse).

Definition extractLeadParagraphFromHtml (html : string) : option string :=
  let text := lead_paragraph html in
  if String.eqb text "" then None else Some text.

Definition scrapeTypeViaMediaWiki (code : string) : Run TypeRecord :=
  let pageTitle := default code (Js.or (TYPE_PAGES !! code) (Some code)) in
  parsed ← mwParsePage pageTitle;
  match parsed ≫= (fun p => match Js.or (text p) None with
                            | Some html => Some (p, html)
                            | None => None
                            end) with
  | None => throw ("No parse for " +:+ pageTitle)
  | Some (p, html) =>
      let overview :=
        default "" (Js.or (extractLeadParagraphFromHtml html)
                          (Some "Socionics type description.")) in
      i ← lift (Js.deref (TYPE_INFO !! code));
      let href := MW_PAGE_BASE +:+ encodeURIComponent pageTitle in
      mret (mkTypeRecord code (Info.fullName i) (Info.alias i) (Info.quadra i)
              (Info.temperament i) (Info.leading i) (Info.creative i)
              (String.substring 0 500 overview) href (revid p)
              (Js.or (displaytitle p) (Some pageTitle)))
  end.

Definition parseType (doc : string) (code : string) : Run TypeRecord :=
  let firstParagraph := first_paragraph doc in
  let overview :=
    if String.eqb firstParagraph "" then "Socionics type description."
    else String.substring 0 280 (collapse_spaces firstParagraph) in
  i ← lift (Js.deref (TYPE_INFO !! code));
  mret (mkTypeRecord code (Info.fullName i) (Info.alias i) (Info.quadra i)
          (Info.temperament i) (Info.leading i) (Info.creative i)
          overview ("https://wikisocion.github.io/content/" +:+ code +:+ ".html")
          None None).

(** [for (const code of codes) { acc.push(await step(code)); }] *)
Fixpoint forEachCode (step : string -> Run TypeRecord) (codes : list string)
    (acc : list TypeRecord) : Run (list TypeRecord) :=
  match codes with
  | [] => mret acc
  | code :: rest =>
      t ← step code;
      forEachCode step rest (acc ++ [t])%list
  end.

Definition base : string := "https://wikisocion.github.io/content".

Definition typesFromGitHub : Run (list TypeRecord) :=
  forEachCode
    (fun code =>
       doc ← load (base +:+ "/" +:+ code +:+ ".html");
       parseType doc code)
    TYPE_CODES [].

Definition typesFromMediaWiki : Run (list TypeRecord) :=
  forEachCode
    (fun code =>
       t ← scrapeTypeViaMediaWiki code;
       _ ← delay 120;
       mret t)
    TYPE_CODES [].

Definition buildRelations : list Relation.t :=
  map (fun '(a, b) =>
         Relation.mk a b "Duality"
           "Complementary strengths; easy role division; watch for over-reliance on partner's valued elements.")
      DUAL_PAIRS.

(** [scrapeAll] up to the point where it writes its files; [source] is the
    value of the [--source=] argument, else of [WIKISOCION_SOURCE], else
    ["auto"]. *)
Definition scrapeAll (source : string) : Run Scraped :=
  '(types, usedSource) ←
    (if String.eqb source "github" then
       types ← typesFromGitHub;
       mret (types, source)
     else if String.eqb source "mediawiki" then
       catch (types ← typesFromMediaWiki; mret (types, source))
         (fun e =>
            _ ← console_warn ("MediaWiki scrape failed (" +:+ e
                              +:+ "); falling back to GitHub content.");
            types ← typesFromGitHub;
            mret (types, "github"))
     else
       catch (types ← typesFromMediaWiki; mret (types, "mediawiki"))
         (fun e =>
            _ ← console_warn ("Auto mode: MediaWiki unavailable (" +:+ e
                              +:+ "). Using GitHub pages.");
            types ← typesFromGitHub;
            mret (types, "github")));
  mret (mkScraped types usedSource buildRelations).

(** [scrapeAll().catch(e => { console.error(e); process.exit(1); })]:
    the exit status of the process, with the trace of the run. *)
Definition main (source : string) : Z * list Event :=
  match scrapeAll source [] with
  | (Normal _, tr) => (0, tr)
  | (Throw _, tr) => (1, tr)
  end.

End Run.

End Scraper.

(** ** The live loader of the application (src/data/loaders.js) *)

Module Live.

(** What awaiting a promise gives: it settles, with a value or with an
    error, or it stays pending for ever. *)
Inductive outcome (A : Type) : Type :=
| Settled (c : Js.completion A)
| Pending.
Arguments Settled {A} c.
Arguments Pending {A}.

Definition DEFAULT_API : string := "https://wikisocion.net/w/api.php".
Definition DEFAULT_PAGE_BASE : string := "https://wikisocion.net/en/index.php?title=".

Section Fetch.
(** What becomes of a request to a URL; the browser's [fetch] is called
    without a timeout, so a request that is never answered is awaited for
    ever. *)
Variable net : string -> Scraper.Network.
(** [import.meta.env?.VITE_WIKISOCION_API] and [..._PAGE_BASE], when they are
    strings. *)
Variables VITE_WIKISOCION_API VITE_WIKISOCION_PAGE_BASE : option string.
(** [Response.json], [URLSearchParams.toString], [encodeURIComponent]; the
    [textContent] of the [p] elements of a parsed document, in order; and
    [.replace(/\s+/g, " ").trim()]. *)
Variable json : string -> Js.completion (option Scraper.MwJson).
Variable URLSearchParams_toString : list (string * string) -> string.
Variable encodeURIComponent : string -> string.
Variable paragraphs : string -> list (option string).
Variable normalize : string -> string.

(** The body shared by [getApiBase] and [getPageBase]. *)
Definition configured (value : option string) (fallback : string) : string :=
  match value with
  | Some v =>
      if Js.nonempty v && Js.nonempty (Js.trim v) then Js.trim v else fallback
  | None => fallback
  end.

Definition getApiBase : string := configured VITE_WIKISOCION_API DEFAULT_API.
Definition getPageBase : string := configured VITE_WIKISOCION_PAGE_BASE DEFAULT_PAGE_BASE.

Definition extractLeadParagraph (html : string) : option string :=
  Loaders.extractLeadParagraph normalize (paragraphs html).

(** [fetchType(code)], for a code that names no inherited property of the
    tables: what the promise comes to, and the URLs requested. *)
Definition fetchType (code : string) : outcome TypeRecord * list string :=
  match Loaders.TYPE_INFO !! code with
  | None => (Settled (Throw ("Unknown type code: " +:+ code)), [])
  | Some info =>
      let pageTitle := default code (Js.or (Loaders.TYPE_PAGES !! code) (Some code)) in
      let api := getApiBase in
      let pageBase := getPageBase in
      let params :=
        URLSearchParams_toString
          [ ("action", "parse"); ("page", pageTitle);
            ("prop", "text|displaytitle|revid"); ("format", "json");
            ("formatversion", "2"); ("redirects", "true"); ("origin", "*") ] in
      let url := api +:+ "?" +:+ params in
      match net url with
      | Scraper.Hangs => (Pending, [url])
      | Scraper.Fails _ msg => (Settled (Throw msg), [url])
      | Scraper.Responds _ response =>
          (Settled
             (if negb (Scraper.ok response) then
                Throw ("HTTP " +:+ pretty (Scraper.status response)
                       +:+ " while fetching " +:+ pageTitle)
              else
                j ← json (Scraper.body response);
                match j ≫= Scraper.parse with
                | Some parsed =>
                    if negb (Js.truthy_str (Scraper.text parsed)) then
                      Throw ("No parse data returned for " +:+ pageTitle)
                    else
                      let overview :=
                        default ""
                          (Js.or (extractLeadParagraph
                                    (default "" (Scraper.text parsed)))
                                 (Some "Socionics type description.")) in
                      let href := pageBase +:+ encodeURIComponent pageTitle in
                      Normal
                        (mkTypeRecord code (Info.fullName info) (Info.alias info)
                           (Info.quadra info) (Info.temperament info)
                           (Info.leading info) (Info.creative info)
                           (String.substring 0 500 overview) href
                           (Scraper.revid parsed)
                           (Js.or (Scraper.displaytitle parsed) (Some pageTitle)))
                | None => Throw ("No parse data returned for " +:+ pageTitle)
                end),
           [url])
      end
  end.

End Fetch.

End Live.

(** ** Reasoning support *)

(** The label of a completed call, for statements about labels only. *)
Definition label_of (c : Js.completion Rel.t) : Js.completion string :=
  r ← c; mret (Rel.key r).

(** The classifier applied to two present records and the dual set built from
    the relations dataset, as every caller in the application does. *)
Definition classify (a b : TypeRecord) : Js.completion Rel.t :=
  App.classifyRelation (Some a) (Some b) (App.DualsSet App.DUALS).

(** None of the eight named rules matches. *)
Definition no_rule_matches (a b : TypeRecord) (duals : App.DualsArg) : bool :=
  negb (App.isIdentity a b) && negb (App.isDual a b duals)
  && negb (App.activator a b) && negb (App.mirror a b)
  && negb (App.semiDual a b) && negb (App.extinguishment a b)
  && negb (App.business a b duals) && negb (App.conflict a b duals).

(** The type object built from a code and its [TYPE_INFO] entry. *)
Definition typeOf (c : string) (i : Info.t) (ov h : string)
    (r : option Z) (ti : option string) : TypeRecord :=
  mkTypeRecord c (Info.fullName i) (Info.alias i) (Info.quadra i)
    (Info.temperament i) (Info.leading i) (Info.creative i) ov h r ti.

(** The sixteen canonical records with empty page-dependent fields. *)
Definition canon (c : string) : TypeRecord :=
  match Loaders.TYPE_INFO !! c with
  | Some i => typeOf c i "" "" None None
  | None => mkTypeRecord c "" "" "" "" "" "" "" "" None None
  end.

Definition ILE : TypeRecord := canon "ILE".
Definition SEI : TypeRecord := canon "SEI".
Definition LII : TypeRecord := canon "LII".
Definition ESE : TypeRecord := canon "ESE".
Definition SEE : TypeRecord := canon "SEE".

(** The pairs of a list in which a code occurs, and the codes it is paired
    with. *)
Definition pairs_with (c : string) (pairs : list (string * string))
  : list (string * string) :=
  List.filter (fun '(x, y) => String.eqb c x || String.eqb c y) pairs.

Definition partners (c : string) (pairs : list (string * string)) : list string :=
  flat_map (fun '(x, y) =>
              ((if String.eqb c x then [y] else [])
               ++ (if String.eqb c y then [x] else []))%list)
           pairs.

(** Whether a request that meets network behaviour [n] under an abort timer of
    [T] milliseconds yields an ok response. *)
Definition attempt_ok (n : Scraper.Network) (T : Z) : bool :=
  match n with
  | Scraper.Responds after r => (after <? T)%Z && Scraper.ok r
  | _ => false
  end.

(** The trace of [n] consecutive attempts on [url], the first numbered
    [attempt + 1]: one request each, and after each but the last a sleep of 400
    ms times the number of the attempt that has just failed. *)
Fixpoint retry_trace (url : string) (T attempt : Z) (n : nat) : list Scraper.Event :=
  match n with
  | O => []
  | S n' =>
      Scraper.Request url T ::
      match n' with
      | O => []
      | S _ => Scraper.Sleep (400 * (attempt + 1)) :: retry_trace url T (attempt + 1) n'
      end
  end.

(** The GitHub content page of a type code. *)
Definition github_page (code : string) : string :=
  Scraper.base +:+ "/" +:+ code +:+ ".html".

(** The URL [mwGet] builds for the parse request of a type code's page. *)
Definition mediawiki_url (env : gmap string string)
    (URLSearchParams_toString : list (string * string) -> string)
    (code : string) : string :=
  let pageTitle := default code (Js.or (Scraper.TYPE_PAGES !! code) (Some code)) in
  Scraper.MW_API env +:+ "?" +:+
  URLSearchParams_toString
    ([("format", "json"); ("origin", "*")] ++
     [ ("action", "parse"); ("page", pageTitle);
       ("prop", "text|sections|revid|displaytitle");
       ("formatversion", "2"); ("redirects", "true");
       ("disableeditsection", "true") ])%list.

(** No request to [url] ever yields an ok response within [T] ms. *)
Definition dead (net : string -> nat -> Scraper.Network) (url : string) (T : Z) : Prop :=
  forall n : nat, attempt_ok (net url n) T = false.

(** A concrete world: the MediaWiki host never answers, the GitHub pages
    answer at once. *)
Definition mediawiki_down (url : string) (n : nat) : Scraper.Network :=
  if String.prefix "https://wikisocion.net/" url then Scraper.Hangs
  else Scraper.Responds 35 (Scraper.mkResponse true 200 "<p>A type.</p>").

(** A concrete world in which only the GitHub page of LII answers 503. *)
Definition lii_page_broken (url : string) (n : nat) : Scraper.Network :=
  if String.eqb url "https://wikisocion.github.io/content/LII.html"
  then Scraper.Responds 20 (Scraper.mkResponse false 503 "")
  else Scraper.Responds 35 (Scraper.mkResponse true 200 "<p>A type.</p>").

Definition no_json (s : string) : Js.completion (option Scraper.MwJson) :=
  Throw "SyntaxError: Unexpected token < in JSON".

Definition query_string (l : list (string * string)) : string :=
  Js.join "&" (map (fun '(k, v) => k +:+ "=" +:+ v) l).

(** A record outside the canonical sixteen: a seventeenth type whose quadra is
    not one of the four of [quadraOrder]. *)
Definition stray : TypeRecord :=
  mkTypeRecord "XYZ" "Stray Type" "XXXx" "Omega" "EP" "Xe" "Xi" "" "" None None.

Definition IEE : TypeRecord := canon "IEE".

(** Every request to [url] yields an ok response within [T] ms. *)
Definition alive (net : string -> nat -> Scraper.Network) (url : string) (T : Z) : Prop :=
  forall n : nat, attempt_ok (net url n) T = true.

(** A concrete world in which every request is answered at once. *)
Definition all_up (url : string) (n : nat) : Scraper.Network :=
  Scraper.Responds 35 (Scraper.mkResponse true 200 "<p>A type.</p>").

(** Whether a decoded MediaWiki answer lets [scrapeTypeViaMediaWiki] go on: it
    is JSON, carries no [error] member, and has a [parse] member with a
    non-empty [text]. *)
(** A concrete MediaWiki answer decoder: every body decodes to a parse result
    with a short text. *)
Definition wiki_json (s : string) : Js.completion (option Scraper.MwJson) :=
  Normal (Some (Scraper.mkMwJson None
                  (Some (Scraper.mkMwParsed (Some "<p>A type.</p>") (Some 7%Z) None)))).

Definition usable_answer (c : Js.completion (option Scraper.MwJson)) : bool :=
  match c with
  | Normal (Some j) =>
      match Scraper.error j, Scraper.parse j with
      | None, Some p =>
          match Scraper.text p with
          | Some html => negb (String.eqb html "")
          | None => false
          end
      | _, _ => false
      end
  | _ => false
  end.

(** A path segment: not empty and free of slashes. *)
Fixpoint no_char (c : Ascii.ascii) (s : string) : bool :=
  match s with
  | EmptyString => true
  | String c' s' => negb (Ascii.eqb c' c) && no_char c s'
  end.

Definition segment (s : string) : bool := Js.nonempty s && no_char "/"%char s.

Definition opt_segment (x : option string) : bool :=
  match x with Some s => segment s | None => false end.

Definition opt_upper (x : option string) : bool :=
  match x with Some s => String.eqb (Js.toUpperCase s) s | None => true end.

Definition absent {A : Type} (x : option A) : bool :=
  match x with Some _ => false | None => true end.

(** The routes that survive a trip through the address bar: a plain page; a
    type with an upper-case code; the glossary, with or without a focus; a
    comparison with both codes, upper-case, or with neither. *)
Definition wf_route (r : App.Route.t) : bool :=
  let n := App.Route.name r in
  if String.eqb n "home" || existsb (String.eqb n) App.PLAIN_ROUTES then
    absent (App.Route.code r) && absent (App.Route.focus r)
    && absent (App.Route.a r) && absent (App.Route.b r)
  else if String.eqb n "type" then
    opt_segment (App.Route.code r) && opt_upper (App.Route.code r)
    && absent (App.Route.focus r) && absent (App.Route.a r) && absent (App.Route.b r)
  else if String.eqb n "glossary" then
    (absent (App.Route.focus r) || opt_segment (App.Route.focus r))
    && absent (App.Route.code r) && absent (App.Route.a r) && absent (App.Route.b r)
  else if String.eqb n "compare" then
    absent (App.Route.code r) && absent (App.Route.focus r)
    && ((absent (App.Route.a r) && absent (App.Route.b r))
        || (opt_segment (App.Route.a r) && opt_upper (App.Route.a r)
            && opt_segment (App.Route.b r) && opt_upper (App.Route.b r)))
  else false.

(** The entry of the search index made for a type and for a glossary entry. *)
Definition type_entry (t : TypeRecord) : Entry.t :=
  Entry.mk "type" (code t) (Some (code t)) (Some (fullName t)) (Some (alias t))
    None None
    (Some (Js.toLowerCase
             (Js.join " " [code t; fullName t; alias t; quadra t;
                           temperament t; leading t; creative t]))).

Definition gloss_entry (g : Gloss.t) : Entry.t :=
  Entry.mk "gloss" (Gloss.term g) None None None
    (Some (Gloss.term g)) (Some (Gloss.shortDef g))
    (Some (Js.toLowerCase (Js.join " " [Gloss.term g; Gloss.shortDef g]))).

(** An entry with its haystack left out, as the fall-back search returns it. *)
Definition without_haystack (e : Entry.t) : Entry.t :=
  Entry.mk (Entry.kind e) (Entry.id e) (Entry.code e) (Entry.fullName e)
    (Entry.alias e) (Entry.term e) (Entry.shortDef e) None.

(** The test the indexed search applies to an entry. *)
Definition index_hit (q : string) (e : Entry.t) : bool :=
  match Entry.haystack e with
  | Some h => Js.nonempty h && Js.includes h q
  | None => false
  end.

(** A query of white space only. *)
Fixpoint blank (s : string) : bool :=
  match s with
  | EmptyString => true
  | String c s' => Js.is_space c && blank s'
  end.

(** The codes of every duality relation are free of hyphens. *)
Definition hyphen_free (relations : list Relation.t) : bool :=
  forallb
    (fun r => negb (String.eqb (Relation.name r) "Duality")
              || (no_char "-"%char (Relation.a r) && no_char "-"%char (Relation.b r)))
    relations.

(** Every code is an upper-case path segment in ASCII; every glossary term is
    a path segment. *)
Definition codes_ok (types : list TypeRecord) : bool :=
  forallb (fun t => segment (code t) && Js.is_ascii (code t)
                    && String.eqb (Js.toUpperCase (code t)) (code t))
          types.

(** The parameters of a route that [hashToRoute] puts in upper case are in
    ASCII. *)
Definition opt_ascii (x : option string) : bool :=
  match x with Some s => Js.is_ascii s | None => true end.

Definition ascii_route (r : App.Route.t) : bool :=
  opt_ascii (App.Route.code r) && opt_ascii (App.Route.a r)
  && opt_ascii (App.Route.b r).

Definition terms_ok (glossary : list Gloss.t) : bool :=
  forallb (fun g => segment (Gloss.term g)) glossary.

(** * Properties *)

(** ** Canonical records *)

Lemma canonical_canon c : c ∈ Loaders.TYPE_CODES -> canonical (canon c).
Proof.
  intros Hc. unfold Loaders.TYPE_CODES in Hc.
  repeat (apply elem_of_cons in Hc as [-> | Hc]);
    [ eexists; vm_compute; repeat split; apply list_elem_of_In; simpl; tauto ..
    | by apply elem_of_nil in Hc ].
Qed.

(** Case analysis on a canonical record: it is one of the sixteen, up to its
    page-dependent fields. *)
Lemma canonical_forall (P : TypeRecord -> Prop) :
  (forall c, c ∈ Loaders.TYPE_CODES ->
     forall i, Loaders.TYPE_INFO !! c = Some i ->
     forall ov h r ti, P (typeOf c i ov h r ti)) ->
  forall t, canonical t -> P t.
Proof.
  intros HP [c fn al q tm ld cr ov h r ti] (i & Hc & Hi & Hfn & Hal & Hq & Htm & Hld & Hcr).
  cbn in Hc, Hi, Hfn, Hal, Hq, Htm, Hld, Hcr. subst.
  exact (HP c Hc i Hi ov h r ti).
Qed.

(** Split a goal over a canonical record into its sixteen instances. *)
Ltac each_type :=
  let c := fresh "c" in
  let Hc := fresh "Hc" in
  let i := fresh "i" in
  let Hi := fresh "Hi" in
  lazymatch goal with
  | |- forall t, canonical t -> @?P t => apply (canonical_forall P)
  end;
  intros c Hc i Hi; unfold Loaders.TYPE_CODES in Hc;
  repeat (apply elem_of_cons in Hc as [-> | Hc]);
  [ vm_compute in Hi; injection Hi as <-; intros ? ? ? ? .. | by apply elem_of_nil in Hc ].

Ltac each_pair :=
  intros a b Ha; revert b; revert a Ha; each_type; each_type.


(** The records [parseType] builds for the codes of [TYPE_CODES] are
    canonical, whatever the page says. *)
Lemma parseType_canonical (first_paragraph collapse_spaces : string -> string)
    (doc code : string) (tr : list Scraper.Event) :
  code ∈ Scraper.TYPE_CODES ->
  exists t : TypeRecord,
    Scraper.parseType first_paragraph collapse_spaces doc code tr = (Normal t, tr) /\
    canonical t.
Proof.
  intros Hc.
  assert (Hi : exists i, Scraper.TYPE_INFO !! code = Some i).
  { unfold Scraper.TYPE_CODES in Hc.
    repeat (apply elem_of_cons in Hc as [-> | Hc]);
      [ eexists; vm_compute; reflexivity .. | by apply elem_of_nil in Hc ]. }
  destruct Hi as [i Hi].
  unfold Scraper.parseType, mbind, Scraper.Run_bind, Scraper.lift.
  rewrite Hi. cbn. eexists. split; [reflexivity |].
  exists i. cbn. by repeat split.
Qed.

(** The label enumeration lists the keys of the colour table: every label has
    an entry, and there are as many entries as labels. *)
Lemma relation_labels_are_color_keys :
  size App.RELATION_COLORS = length App.RELATION_LABELS /\
  Forall (fun l => is_Some (App.RELATION_COLORS !! l)) App.RELATION_LABELS.
Proof.
  split; [vm_compute; reflexivity |].
  unfold App.RELATION_LABELS.
  repeat (constructor; [vm_compute; eauto |]). constructor.
Qed.

(** ** General facts about the classifier (any records, any [duals]) *)

Section ClassifierFacts.
Variables (a b : TypeRecord) (duals : App.DualsArg).

Lemma sort_pair (x y : string) :
  Js.sort [x; y] = if String.ltb y x then [y; x] else [x; y].
Proof. reflexivity. Qed.

Lemma sort_pair_sym (x y : string) : Js.sort [x; y] = Js.sort [y; x].
Proof.
  rewrite !sort_pair. unfold String.ltb.
  rewrite (String.compare_antisym y x).
  destruct (String.compare x y) eqn:E; cbn; try reflexivity.
  apply String.compare_eq_iff in E. by subst.
Qed.

Lemma key_sym : App.key a b = App.key b a.
Proof. unfold App.key. by rewrite sort_pair_sym. Qed.

Lemma isIdentity_sym : App.isIdentity a b = App.isIdentity b a.
Proof. apply String.eqb_sym. Qed.

Lemma isDual_sym : App.isDual a b duals = App.isDual b a duals.
Proof. unfold App.isDual. by rewrite key_sym. Qed.

Lemma sameQuadra_sym : App.sameQuadra a b = App.sameQuadra b a.
Proof. apply String.eqb_sym. Qed.

Lemma sameLead_sym : App.sameLead a b = App.sameLead b a.
Proof. apply String.eqb_sym. Qed.

Lemma sameCreative_sym : App.sameCreative a b = App.sameCreative b a.
Proof. apply String.eqb_sym. Qed.

Lemma activator_sym : App.activator a b = App.activator b a.
Proof.
  unfold App.activator.
  rewrite (String.eqb_sym (leading a)), (String.eqb_sym (creative a)).
  apply andb_comm.
Qed.

Lemma mirror_sym : App.mirror a b = App.mirror b a.
Proof.
  unfold App.mirror. by rewrite sameLead_sym, sameCreative_sym, isIdentity_sym.
Qed.

Lemma semiDual_sym : App.semiDual a b = App.semiDual b a.
Proof. unfold App.semiDual. rewrite activator_sym. apply orb_comm. Qed.

Lemma qd_sym : App.qd a b = App.qd b a.
Proof. unfold App.qd. lia. Qed.

Lemma business_sym : App.business a b duals = App.business b a duals.
Proof. unfold App.business. by rewrite qd_sym, isDual_sym, semiDual_sym. Qed.

Lemma conflict_sym : App.conflict a b duals = App.conflict b a duals.
Proof. unfold App.conflict. by rewrite qd_sym, sameQuadra_sym, isDual_sym. Qed.

Lemma extinguishment_sym : App.extinguishment a b = App.extinguishment b a.
Proof.
  unfold App.extinguishment.
  by rewrite sameLead_sym, sameCreative_sym, isIdentity_sym, mirror_sym.
Qed.

Lemma superEgo_sym : App.superEgo a b duals = App.superEgo b a duals.
Proof.
  unfold App.superEgo.
  by rewrite isIdentity_sym, isDual_sym, sameQuadra_sym, activator_sym,
    mirror_sym, semiDual_sym, extinguishment_sym, business_sym.
Qed.

(** The label does not depend on the order of the two records. *)
Lemma label_sym : App.label a b duals = App.label b a duals.
Proof.
  unfold App.label.
  by rewrite isIdentity_sym, isDual_sym, activator_sym, mirror_sym,
    semiDual_sym, extinguishment_sym, conflict_sym, business_sym, superEgo_sym.
Qed.

(** Every label is one of the ten keys of the colour table. *)
Lemma label_enumerated : App.label a b duals ∈ App.RELATION_LABELS.
Proof.
  unfold App.label, App.RELATION_LABELS.
  repeat match goal with |- context [if ?c then _ else _] => destruct c end;
    apply list_elem_of_In; simpl; tauto.
Qed.

(** Every label has a colour of its own in [RELATION_COLORS]. *)
Lemma label_has_color :
  is_Some (App.RELATION_COLORS !! App.label a b duals).
Proof.
  unfold App.label.
  repeat match goal with |- context [if ?c then _ else _] => destruct c end;
    vm_compute; eauto.
Qed.

(** With both records present the call returns: the labelled result. *)
Lemma classifyRelation_present :
  App.classifyRelation (Some a) (Some b) duals
  = Normal (Rel.mk (App.label a b duals)
              (Js.or (App.RELATION_COLORS !! App.label a b duals)
                     (App.RELATION_COLORS !! "Other"))).
Proof. reflexivity. Qed.

Lemma label_of_present :
  label_of (App.classifyRelation (Some a) (Some b) duals)
  = Normal (App.label a b duals).
Proof. reflexivity. Qed.

(** The label is ['Identity'] exactly when the two codes are equal. *)
Lemma label_identity_iff :
  App.label a b duals = "Identity" <-> code a = code b.
Proof.
  unfold App.label, App.isIdentity.
  destruct (String.eqb_spec (code a) (code b)) as [E | E]; [tauto |].
  split; [| tauto].
  repeat match goal with |- context [if ?c then _ else _] => destruct c end;
    discriminate.
Qed.

(** When no named rule matches, the outcome is decided by the quadra test of
    the Super-ego rule alone. *)
Lemma residual_label :
  no_rule_matches a b duals = true ->
  App.label a b duals
  = if App.sameQuadra a b then "Other" else "Super-ego".
Proof.
  unfold no_rule_matches, App.label, App.superEgo.
  destruct (App.isIdentity a b), (App.isDual a b duals), (App.activator a b),
    (App.mirror a b), (App.semiDual a b), (App.extinguishment a b),
    (App.business a b duals), (App.conflict a b duals); cbn; try discriminate.
  intros _. by destruct (App.sameQuadra a b).
Qed.

End ClassifierFacts.

(** On records whose quadras are among the four of [quadraOrder], the
    Super-ego rule never fires: distance 2 is taken by Conflict and distances
    1 and 3 by Business or an earlier rule. *)
Lemma superEgo_dead (a b : TypeRecord) (duals : App.DualsArg) :
  quadra a ∈ App.quadraOrder -> quadra b ∈ App.quadraOrder ->
  App.label a b duals <> "Super-ego".
Proof.
  intros Ha Hb. unfold App.label, App.superEgo, App.business, App.conflict,
    App.qd, App.sameQuadra.
  unfold App.quadraOrder in *.
  repeat (apply elem_of_cons in Ha as [-> | Ha]); [ .. | by apply elem_of_nil in Ha ];
  (repeat (apply elem_of_cons in Hb as [-> | Hb]); [ .. | by apply elem_of_nil in Hb ]);
  cbn;
  destruct (App.isIdentity a b), (App.isDual a b duals), (App.activator a b),
    (App.mirror a b), (App.semiDual a b), (App.extinguishment a b); cbn;
  discriminate.
Qed.

(** ** The classifier on the canonical 16 x 16 domain *)

(** Discharge a membership hypothesis in a closed list of closed pairs. *)
Ltac no_such_pair H :=
  exfalso; apply list_elem_of_In in H; cbn in H;
  repeat (destruct H as [H | H]; [discriminate H |]); exact H.

(** C1, as stated, fails: on the canonical pair ILE, ESE none of the eight
    named rules matches, yet the label is ['Other'], not ['Super-ego']. *)
Lemma residual_pair_is_other_not_super_ego :
  canonical ILE /\ canonical ESE /\
  no_rule_matches ILE ESE (App.DualsSet App.DUALS) = true /\
  label_of (classify ILE ESE) = Normal "Other" /\
  label_of (classify ILE ESE) <> Normal "Super-ego".
Proof.
  split; [apply canonical_canon; apply list_elem_of_In; simpl; tauto |].
  split; [apply canonical_canon; apply list_elem_of_In; simpl; tauto |].
  split; [vm_compute; reflexivity |].
  split; [vm_compute; reflexivity | vm_compute; discriminate].
Qed.

(** C1 (amended): for every ordered pair of canonical records on which none of
    the rules Identity, Duality, Activation, Mirror, Semi-duality,
    Extinguishment, Business, Conflict matches, the two records are distinct,
    share a quadra, and [classifyRelation] returns the label ['Other'] with the
    Other colour: the Super-ego rule demands different quadras, so the
    ['Other'] default is reached on the canonical domain. *)
Theorem residual_pairs_same_quadra_other (a b : TypeRecord) :
  canonical a -> canonical b ->
  no_rule_matches a b (App.DualsSet App.DUALS) = true ->
  code a <> code b /\ quadra a = quadra b /\
  classify a b = Normal (Rel.mk "Other" (Some "#64748b")).
Proof.
  revert a b. each_pair; intros H;
    first [ vm_compute in H; discriminate H
          | split; [cbn; discriminate | split; vm_compute; reflexivity] ].
Qed.

Lemma residual_pairs_same_quadra_other_witness :
  code ILE <> code ESE /\ quadra ILE = quadra ESE /\
  classify ILE ESE = Normal (Rel.mk "Other" (Some "#64748b")).
Proof.
  apply (residual_pairs_same_quadra_other ILE ESE).
  - apply canonical_canon; apply list_elem_of_In; simpl; tauto.
  - apply canonical_canon; apply list_elem_of_In; simpl; tauto.
  - vm_compute; reflexivity.
Defined.

(** No canonical pair is labelled ['Super-ego']. *)
Lemma super_ego_never_on_canonical (a b : TypeRecord) :
  canonical a -> canonical b -> label_of (classify a b) <> Normal "Super-ego".
Proof.
  intros Ha Hb. unfold classify. rewrite label_of_present.
  intros [= H]. revert H. apply superEgo_dead.
  - revert a Ha. each_type; apply list_elem_of_In; simpl; tauto.
  - revert b Hb. each_type; apply list_elem_of_In; simpl; tauto.
Qed.

(** C2: every ordered pair of distinct canonical records at quadra distance 2
    that is not a dual pair is labelled ['Conflict']. *)
Theorem quadra_distance_two_is_conflict (a b : TypeRecord) :
  canonical a -> canonical b ->
  code a <> code b ->
  App.qd a b = 2 ->
  App.isDual a b (App.DualsSet App.DUALS) = false ->
  label_of (classify a b) = Normal "Conflict".
Proof.
  revert a b. each_pair; intros Hne Hqd Hdual;
    first [ vm_compute; reflexivity | vm_compute in Hqd; discriminate Hqd ].
Qed.

Lemma quadra_distance_two_is_conflict_witness :
  label_of (classify ILE SEE) = Normal "Conflict".
Proof.
  apply (quadra_distance_two_is_conflict ILE SEE).
  - apply canonical_canon; apply list_elem_of_In; simpl; tauto.
  - apply canonical_canon; apply list_elem_of_In; simpl; tauto.
  - vm_compute; discriminate.
  - vm_compute; reflexivity.
  - vm_compute; reflexivity.
Defined.

(** C3: on canonical records and the canonical dual set the label does not
    depend on the order of the arguments. *)
Theorem classify_label_symmetric (a b : TypeRecord) :
  canonical a -> canonical b ->
  label_of (App.classifyRelation (Some a) (Some b) (App.DualsSet App.DUALS))
  = label_of (App.classifyRelation (Some b) (Some a) (App.DualsSet App.DUALS)).
Proof.
  intros _ _. rewrite !label_of_present. f_equal. apply label_sym.
Qed.

Lemma classify_label_symmetric_witness :
  label_of (App.classifyRelation (Some ILE) (Some LII) (App.DualsSet App.DUALS))
  = label_of (App.classifyRelation (Some LII) (Some ILE) (App.DualsSet App.DUALS)).
Proof.
  apply (classify_label_symmetric ILE LII);
    apply canonical_canon; apply list_elem_of_In; simpl; tauto.
Defined.

(** C4: on each of the 256 ordered pairs of canonical records the call
    completes normally (it does not throw) with exactly one label, and that
    label belongs to the ten-label enumeration. *)
Theorem classify_total_on_canonical (a b : TypeRecord) :
  canonical a -> canonical b ->
  exists l : string,
    unique (fun l' => label_of (classify a b) = Normal l') l /\
    l ∈ App.RELATION_LABELS.
Proof.
  intros _ _. exists (App.label a b (App.DualsSet App.DUALS)).
  split; [split |].
  - apply label_of_present.
  - unfold classify. rewrite label_of_present. by intros l' [= ->].
  - apply label_enumerated.
Qed.

Lemma classify_total_on_canonical_witness :
  exists l : string,
    unique (fun l' => label_of (classify SEI SEE) = Normal l') l /\
    l ∈ App.RELATION_LABELS.
Proof.
  apply (classify_total_on_canonical SEI SEE);
    apply canonical_canon; apply list_elem_of_In; simpl; tauto.
Defined.

(** C5: each of the eight pairs of [DUAL_PAIRS] is labelled ['Duality'] in
    both argument orders, the dual set being the sorted-and-joined keys. *)
Theorem dual_pairs_are_duality (a b : TypeRecord) :
  canonical a -> canonical b ->
  (code a, code b) ∈ Loaders.DUAL_PAIRS ->
  label_of (classify a b) = Normal "Duality" /\
  label_of (classify b a) = Normal "Duality".
Proof.
  revert a b. each_pair; intros H;
    first [ split; vm_compute; reflexivity | no_such_pair H ].
Qed.

Lemma dual_pairs_are_duality_witness :
  label_of (classify LII ESE) = Normal "Duality" /\
  label_of (classify ESE LII) = Normal "Duality".
Proof.
  apply (dual_pairs_are_duality LII ESE).
  - apply canonical_canon; apply list_elem_of_In; simpl; tauto.
  - apply canonical_canon; apply list_elem_of_In; simpl; tauto.
  - apply list_elem_of_In; vm_compute; tauto.
Defined.

(** C6: a canonical record with itself is labelled ['Identity'], and two
    canonical records with distinct codes are never labelled ['Identity']. *)
Theorem identity_exactly_on_equal_codes (a b : TypeRecord) :
  canonical a -> canonical b ->
  label_of (classify a a) = Normal "Identity" /\
  (code a <> code b -> label_of (classify a b) <> Normal "Identity").
Proof.
  intros _ _. unfold classify. rewrite !label_of_present. split.
  - f_equal. by apply label_identity_iff.
  - intros Hne [= H]. by apply label_identity_iff in H.
Qed.

Lemma identity_exactly_on_equal_codes_witness :
  label_of (classify LII LII) = Normal "Identity" /\
  (code LII <> code ESE -> label_of (classify LII ESE) <> Normal "Identity").
Proof.
  apply (identity_exactly_on_equal_codes LII ESE);
    apply canonical_canon; apply list_elem_of_In; simpl; tauto.
Defined.

(** ** The datasets *)

(** C7: [DUAL_PAIRS] is a perfect matching on [TYPE_CODES]: there are eight
    pairs, and each of the sixteen codes occurs in exactly one pair, with a
    single partner, which is another code whose single partner it is. *)
Theorem dual_pairs_perfect_matching (c : string) :
  c ∈ Loaders.TYPE_CODES ->
  length Loaders.DUAL_PAIRS = 8%nat /\
  length (pairs_with c Loaders.DUAL_PAIRS) = 1%nat /\
  exists d : string,
    partners c Loaders.DUAL_PAIRS = [d] /\
    d <> c /\ d ∈ Loaders.TYPE_CODES /\
    partners d Loaders.DUAL_PAIRS = [c].
Proof.
  intros Hc. unfold Loaders.TYPE_CODES in Hc.
  repeat (apply elem_of_cons in Hc as [-> | Hc]);
    [ (split; [reflexivity |]; split; [reflexivity |];
       eexists; split; [vm_compute; reflexivity |];
       split; [discriminate |];
       split; [apply list_elem_of_In; simpl; tauto | reflexivity]) ..
    | by apply elem_of_nil in Hc ].
Qed.

Lemma dual_pairs_perfect_matching_witness :
  length Loaders.DUAL_PAIRS = 8%nat /\
  length (pairs_with "EIE" Loaders.DUAL_PAIRS) = 1%nat /\
  exists d : string,
    partners "EIE" Loaders.DUAL_PAIRS = [d] /\
    d <> "EIE" /\ d ∈ Loaders.TYPE_CODES /\
    partners d Loaders.DUAL_PAIRS = ["EIE"].
Proof.
  apply (dual_pairs_perfect_matching "EIE").
  apply list_elem_of_In; simpl; tauto.
Defined.

(** C8: in each of the sixteen canonical records the leading element differs
    from the creative one. *)
Theorem leading_differs_from_creative (t : TypeRecord) :
  canonical t -> leading t <> creative t.
Proof.
  revert t. each_type; cbn; discriminate.
Qed.

Lemma leading_differs_from_creative_witness : leading SEE <> creative SEE.
Proof.
  apply (leading_differs_from_creative SEE).
  apply canonical_canon; apply list_elem_of_In; simpl; tauto.
Defined.

(** ** Missing arguments *)

(** C10: when a record argument is [null] or [undefined] the call does not
    throw and returns ['Other'] with the Other colour; when [duals] is absent
    or has no callable [has], the duality test is false and the call proceeds
    as with an empty set. *)
Theorem classifyRelation_missing_arguments
    (x : option TypeRecord) (a b : TypeRecord) (duals : App.DualsArg) :
  App.classifyRelation None x duals = Normal (Rel.mk "Other" (Some "#64748b")) /\
  App.classifyRelation x None duals = Normal (Rel.mk "Other" (Some "#64748b")) /\
  App.isDual a b App.DualsMissing = false /\
  App.isDual a b App.DualsNoHas = false /\
  App.classifyRelation (Some a) (Some b) App.DualsMissing
  = App.classifyRelation (Some a) (Some b) (App.DualsSet ∅) /\
  App.classifyRelation (Some a) (Some b) App.DualsNoHas
  = App.classifyRelation (Some a) (Some b) (App.DualsSet ∅).
Proof.
  split; [reflexivity |].
  split; [by destruct x |].
  split; [reflexivity |].
  split; [reflexivity |].
  assert (He : App.isDual a b (App.DualsSet ∅) = false).
  { unfold App.isDual. apply bool_decide_eq_false. apply not_elem_of_empty. }
  assert (Hl : forall d, App.isDual a b d = false ->
                 App.label a b d = App.label a b (App.DualsSet ∅)).
  { intros d Hd.
    unfold App.label, App.superEgo, App.business, App.conflict.
    by rewrite Hd, He. }
  rewrite !classifyRelation_present.
  split; by rewrite Hl.
Qed.

(** The scraper carries its own copies of the tables; they are the loader's. *)
Lemma scraper_tables_agree :
  Scraper.TYPE_CODES = Loaders.TYPE_CODES /\
  Scraper.TYPE_INFO = Loaders.TYPE_INFO /\
  Scraper.DUAL_PAIRS = Loaders.DUAL_PAIRS /\
  Scraper.buildRelations = Loaders.buildRelations.
Proof. repeat split. Qed.

(** ** The scraper's fetch policy *)

Section FetchFacts.
Variable net : string -> nat -> Scraper.Network.

Lemma requests_snoc_request tr url T :
  Scraper.requests (tr ++ [Scraper.Request url T]) = S (Scraper.requests tr).
Proof.
  unfold Scraper.requests. rewrite List.filter_app, length_app. cbn. lia.
Qed.

Lemma requests_snoc_sleep tr ms :
  Scraper.requests (tr ++ [Scraper.Sleep ms]) = Scraper.requests tr.
Proof.
  unfold Scraper.requests. rewrite List.filter_app, length_app. cbn. lia.
Qed.

(** One attempt: a request is logged, and the attempt yields a response
    exactly when the network answers ok before the abort timer. *)
Lemma attemptFetch_spec url T tr :
  snd (Scraper.attemptFetch net url T tr) = (tr ++ [Scraper.Request url T])%list /\
  match fst (Scraper.attemptFetch net url T tr) with
  | Normal res =>
      attempt_ok (net url (Scraper.requests tr)) T = true /\
      exists after, net url (Scraper.requests tr) = Scraper.Responds after res
  | Throw _ => attempt_ok (net url (Scraper.requests tr)) T = false
  end.
Proof.
  unfold Scraper.attemptFetch, Scraper.fetch, mbind, Scraper.Run_bind, attempt_ok.
  destruct (net url (Scraper.requests tr)) as [after r | after msg |]; cbn.
  - destruct (after <? T)%Z; cbn; [| done].
    destruct (Scraper.ok r); cbn; eauto.
  - by destruct (after <? T)%Z.
  - done.
Qed.

Lemma fetchLoop_spec url T retries attempt tr :
  exists n : nat,
    (1 <= n)%nat /\
    (Z.of_nat n <= Z.max 1 (retries + 2 - attempt))%Z /\
    snd (Scraper.fetchLoop net url T retries attempt tr)
    = (tr ++ retry_trace url T attempt n)%list /\
    (forall k, (k < n - 1)%nat ->
       attempt_ok (net url (Scraper.requests tr + k)) T = false) /\
    match fst (Scraper.fetchLoop net url T retries attempt tr) with
    | Normal res =>
        attempt_ok (net url (Scraper.requests tr + (n - 1))) T = true /\
        exists after,
          net url (Scraper.requests tr + (n - 1)) = Scraper.Responds after res
    | Throw _ =>
        attempt_ok (net url (Scraper.requests tr + (n - 1))) T = false /\
        Z.of_nat n = Z.max 1 (retries + 2 - attempt)
    end.
Proof.
  funelim (Scraper.fetchLoop net url T retries attempt tr).
  - (* the attempt succeeds *)
    destruct (attemptFetch_spec url timeoutMs tr) as [Htr Hres].
    rewrite Heq in Htr, Hres. cbn in Htr, Hres. destruct Hres as [Hok Hnet].
    exists 1%nat. cbn. rewrite Nat.add_0_r.
    repeat split; [lia | lia | done | intros k Hk; lia | done | done].
  - (* the attempt fails and no further attempt is made *)
    destruct (attemptFetch_spec url timeoutMs tr) as [Htr Hres].
    rewrite Heq in Htr, Hres. cbn in Htr, Hres.
    exists 1%nat. cbn. rewrite Nat.add_0_r.
    repeat split; [lia | lia | done | intros k Hk; lia | done | lia].
  - (* the attempt fails, the loop sleeps and goes round again *)
    destruct (attemptFetch_spec url timeoutMs tr) as [Htr Hres].
    rewrite Heq in Htr, Hres. cbn in Htr, Hres. subst tr'.
    destruct H as (n & Hn & Hbound & Htrace & Hfail & Hlast).
    rewrite requests_snoc_sleep, requests_snoc_request in Hfail, Hlast.
    exists (S n). destruct n as [| n]; [lia |].
    repeat split.
    + lia.
    + lia.
    + rewrite Htrace. cbn [retry_trace]. by rewrite <- !app_assoc.
    + intros [| k] Hk.
      * by rewrite Nat.add_0_r.
      * replace (Scraper.requests tr + S k)%nat
          with (S (Scraper.requests tr) + k)%nat by lia.
        apply Hfail. lia.
    + replace (Scraper.requests tr + (S (S n) - 1))%nat
        with (S (Scraper.requests tr) + (S n - 1))%nat by lia.
      destruct (Scraper.fetchLoop net url timeoutMs retries (attempt + 1) _).1;
        [done |].
      split; [tauto | lia].
Qed.

End FetchFacts.

Section ScraperFacts.
Variable net : string -> nat -> Scraper.Network.
Variable env : gmap string string.
Variable json : string -> Js.completion (option Scraper.MwJson).
Variable URLSearchParams_toString : list (string * string) -> string.
Variables encodeURIComponent lead_paragraph first_paragraph collapse_spaces
: string -> string.

Local Abbreviation scrapeAll :=
(Scraper.scrapeAll net env json URLSearchParams_toString encodeURIComponent
   lead_paragraph first_paragraph collapse_spaces).
Local Abbreviation typesFromGitHub :=
(Scraper.typesFromGitHub net first_paragraph collapse_spaces).
Local Abbreviation typesFromMediaWiki :=
(Scraper.typesFromMediaWiki net env json URLSearchParams_toString
   encodeURIComponent lead_paragraph).
Local Abbreviation main :=
(Scraper.main net env json URLSearchParams_toString encodeURIComponent
   lead_paragraph first_paragraph collapse_spaces).

(** The policy of [fetchWithRetry]: at least one attempt, each a request
  under the same timer; every attempt before the last has failed and is
  followed by its sleep; the call returns the response of the last attempt
  when that succeeds and throws when it fails. *)
Lemma fetchWithRetry_spec url opts tr :
let T := default 8000 (Scraper.timeoutMs opts) in
let R := default 2 (Scraper.retries opts) in
exists n : nat,
  (1 <= n)%nat /\
  (Z.of_nat n <= Z.max 1 (R + 2))%Z /\
  snd (Scraper.fetchWithRetry net url opts tr)
  = (tr ++ retry_trace url T 0 n)%list /\
  (forall k, (k < n - 1)%nat ->
     attempt_ok (net url (Scraper.requests tr + k)) T = false) /\
  match fst (Scraper.fetchWithRetry net url opts tr) with
  | Normal res =>
      attempt_ok (net url (Scraper.requests tr + (n - 1))) T = true /\
      exists after,
        net url (Scraper.requests tr + (n - 1)) = Scraper.Responds after res
  | Throw _ =>
      attempt_ok (net url (Scraper.requests tr + (n - 1))) T = false /\
      Z.of_nat n = Z.max 1 (R + 2)
  end.
Proof.
intros T R. unfold Scraper.fetchWithRetry. fold T R.
destruct (fetchLoop_spec net url T R 0 tr) as (n & H1 & H2 & H3 & H4 & H5).
exists n. rewrite Z.sub_0_r in H2, H5. by repeat split.
Qed.

(** When no attempt can succeed, [fetchWithRetry] throws. *)
Lemma fetchWithRetry_dead url opts tr :
dead net url (default 8000 (Scraper.timeoutMs opts)) ->
exists e tr', Scraper.fetchWithRetry net url opts tr = (Throw e, tr').
Proof.
intros Hdead.
destruct (fetchWithRetry_spec url opts tr) as (n & _ & _ & _ & _ & Hlast).
destruct (Scraper.fetchWithRetry net url opts tr) as [[res | e] tr'];
  cbn in Hlast; [| eauto].
destruct Hlast as [Hok _]. by rewrite Hdead in Hok.
Qed.

Lemma load_dead url tr :
dead net url 8000 ->
exists e tr', Scraper.load net url tr = (Throw e, tr').
Proof.
intros Hdead.
destruct (fetchWithRetry_dead url Scraper.no_options tr Hdead) as (e & tr' & H).
exists e, tr'. unfold Scraper.load, mbind, Scraper.Run_bind. by rewrite H.
Qed.

(** A loop over the codes throws as soon as one of its steps is bound to. *)
Lemma forEachCode_throws step codes :
(exists c, c ∈ codes /\ forall tr, exists e tr', step c tr = (Throw e, tr')) ->
forall acc tr, exists e tr', Scraper.forEachCode step codes acc tr = (Throw e, tr').
Proof.
intros (c & Hc & Hthrow).
induction codes as [| c' rest IH]; intros acc tr.
- by apply elem_of_nil in Hc.
- cbn [Scraper.forEachCode]. unfold mbind, Scraper.Run_bind.
  destruct (step c' tr) as [[t | e] tr1] eqn:Hstep; [| eauto].
  apply elem_of_cons in Hc as [-> | Hc].
  + destruct (Hthrow tr) as (e & tr' & He). congruence.
  + by apply IH.
Qed.

(** A GitHub page that cannot be fetched makes [typesFromGitHub] throw. *)
Lemma typesFromGitHub_dead code tr :
code ∈ Scraper.TYPE_CODES ->
dead net (github_page code) 8000 ->
exists e tr', typesFromGitHub tr = (Throw e, tr').
Proof.
intros Hc Hdead. unfold Scraper.typesFromGitHub.
apply forEachCode_throws. exists code. split; [done |].
intros tr0. destruct (load_dead _ tr0 Hdead) as (e & tr' & H).
exists e, tr'. unfold mbind, Scraper.Run_bind.
unfold github_page in H. by rewrite H.
Qed.

Lemma github_failure_fails_run code :
code ∈ Scraper.TYPE_CODES ->
dead net (github_page code) 8000 ->
fst (main "github") = 1%Z.
Proof.
intros Hc Hdead. unfold Scraper.main, Scraper.scrapeAll.
destruct (typesFromGitHub_dead code [] Hc Hdead) as (e & tr' & H).
rewrite String.eqb_refl. unfold mbind, Scraper.Run_bind. cbv beta iota.
by rewrite H.
Qed.

(** A MediaWiki page that cannot be fetched makes [typesFromMediaWiki]
  throw. *)
Lemma typesFromMediaWiki_dead code tr :
code ∈ Scraper.TYPE_CODES ->
dead net (mediawiki_url env URLSearchParams_toString code) 8000 ->
exists e tr', typesFromMediaWiki tr = (Throw e, tr').
Proof.
intros Hc Hdead. unfold Scraper.typesFromMediaWiki.
apply forEachCode_throws. exists code. split; [done |].
intros tr0.
destruct (fetchWithRetry_dead _ Scraper.no_options tr0 Hdead) as (e & tr' & H).
exists e, tr'.
unfold Scraper.scrapeTypeViaMediaWiki, Scraper.mwParsePage, Scraper.mwGet,
  mbind, Scraper.Run_bind.
unfold mediawiki_url in H. by rewrite H.
Qed.

(** Outside the ["github"] source, a throw of the MediaWiki phase is caught:
  one warning is logged and the run goes on with the GitHub pages. *)
Lemma mediawiki_failure_falls_back source e tr0 tr1 :
source <> "github" ->
typesFromMediaWiki tr0 = (Throw e, tr1) ->
exists w,
  scrapeAll source tr0
  = (types ← typesFromGitHub;
     mret (Scraper.mkScraped types "github" Scraper.buildRelations))
      (tr1 ++ [Scraper.Warn w])%list.
Proof.
intros Hsrc Hmw. unfold Scraper.scrapeAll.
apply String.eqb_neq in Hsrc. rewrite Hsrc.
destruct (String.eqb source "mediawiki");
  [ exists ("MediaWiki scrape failed (" +:+ e
            +:+ "); falling back to GitHub content.")
  | exists ("Auto mode: MediaWiki unavailable (" +:+ e
            +:+ "). Using GitHub pages.") ];
  unfold mbind, Scraper.Run_bind, Scraper.catch, Scraper.console_warn,
    Scraper.emit; rewrite Hmw;
  destruct (typesFromGitHub _) as [[types | e'] tr2]; reflexivity.
Qed.

End ScraperFacts.

Lemma retry_trace_step url T attempt n :
  retry_trace url T attempt (S (S n))
  = Scraper.Request url T :: Scraper.Sleep (400 * (attempt + 1))
      :: retry_trace url T (attempt + 1) (S n).
Proof. reflexivity. Qed.

(** The sleeps between [n] attempts are 400 ms times 1, 2, ..., [n - 1]
    (counting on from [attempt]). *)
Lemma retry_trace_sleeps url T attempt n :
  omap (fun e => match e with Scraper.Sleep ms => Some ms | _ => None end)
       (retry_trace url T attempt n)
  = map (fun k => (400 * (attempt + Z.of_nat k))%Z) (seq 1 (n - 1)).
Proof.
  revert attempt. induction n as [| n IH]; intros attempt; [done |].
  destruct n as [| n]; [done |].
  rewrite retry_trace_step.
  change (omap ?f (Scraper.Request url T :: Scraper.Sleep ?ms :: ?l))
    with (ms :: omap f l).
  rewrite IH.
  replace (S (S n) - 1)%nat with (S (S n - 1)) by lia.
  cbn [seq map]. f_equal.
  rewrite <- (seq_shift (S n - 1) 1), map_map.
  apply map_ext. intros k. f_equal. lia.
Qed.

Lemma requests_retry_trace tr url T attempt n :
  Scraper.requests (tr ++ retry_trace url T attempt n) = (Scraper.requests tr + n)%nat.
Proof.
  revert tr attempt. induction n as [| n IH]; intros tr attempt.
  - cbn. rewrite app_nil_r. lia.
  - destruct n as [| n].
    + cbn [retry_trace]. rewrite requests_snoc_request. lia.
    + rewrite retry_trace_step.
      change (tr ++ Scraper.Request url T :: Scraper.Sleep (400 * (attempt + 1))
                 :: retry_trace url T (attempt + 1) (S n))%list
        with (tr ++ [Scraper.Request url T] ++ [Scraper.Sleep (400 * (attempt + 1))]
                 ++ retry_trace url T (attempt + 1) (S n))%list.
      rewrite !app_assoc, IH, requests_snoc_sleep, requests_snoc_request. lia.
Qed.

(** X9: when no attempt can succeed, the number of requests made is the
    configured retry count plus two (and one when that count is negative). *)
Lemma fetchWithRetry_dead_requests net url opts tr :
  dead net url (default 8000 (Scraper.timeoutMs opts)) ->
  Scraper.requests (snd (Scraper.fetchWithRetry net url opts tr))
  = (Scraper.requests tr
     + Z.to_nat (Z.max 1 (default 2%Z (Scraper.retries opts) + 2)%Z))%nat.
Proof.
  intros Hdead.
  destruct (fetchWithRetry_spec net url opts tr) as (n & _ & _ & Htr & _ & Hlast).
  rewrite Htr, requests_retry_trace. f_equal.
  destruct (Scraper.fetchWithRetry net url opts tr).1.
  - destruct Hlast as [Hok _]. by rewrite Hdead in Hok.
  - lia.
Qed.

(** With the default options a page that never answers is requested four
    times: the first attempt and three more, separated by sleeps of 400, 800
    and 1200 ms. *)
Lemma default_options_four_requests :
  snd (Scraper.fetchWithRetry (fun _ _ => Scraper.Hangs) "u" Scraper.no_options [])
  = [ Scraper.Request "u" 8000; Scraper.Sleep 400;
      Scraper.Request "u" 8000; Scraper.Sleep 800;
      Scraper.Request "u" 8000; Scraper.Sleep 1200;
      Scraper.Request "u" 8000 ].
Proof. vm_compute. reflexivity. Qed.




(** * Further properties of the sources *)

(** ** The classifier on arbitrary arguments *)

(** X1: the whole result of [classifyRelation], label and colour, does not
    depend on the order of its two record arguments, whether they are present
    or not and canonical or not, when [duals] is absent, an object without
    [has], or a set of strings. *)
Theorem classifyRelation_symmetric
    (x y : option TypeRecord) (duals : App.DualsArg) :
  App.classifyRelation x y duals = App.classifyRelation y x duals.
Proof.
  destruct x as [a |], y as [b |]; try reflexivity.
  rewrite !classifyRelation_present. by rewrite (label_sym a b).
Qed.

(** X2: given two arguments that are each absent or a record with string
    fields, and [duals] that is absent, an object without [has], or a set of
    strings, [classifyRelation] does not throw; the label it returns is one
    of the ten of the enumeration and the colour is that label's own entry of
    [RELATION_COLORS], so the [|| RELATION_COLORS.Other] fallback is never
    what decides the colour. *)
Theorem classifyRelation_total_with_own_color
    (x y : option TypeRecord) (duals : App.DualsArg) :
  exists r : Rel.t,
    App.classifyRelation x y duals = Normal r /\
    Rel.key r ∈ App.RELATION_LABELS /\
    Rel.color r = App.RELATION_COLORS !! Rel.key r /\
    is_Some (Rel.color r).
Proof.
  assert (Hother : exists r : Rel.t,
            Normal (Rel.mk "Other" (App.RELATION_COLORS !! "Other")) = Normal r /\
            Rel.key r ∈ App.RELATION_LABELS /\
            Rel.color r = App.RELATION_COLORS !! Rel.key r /\
            is_Some (Rel.color r)).
  { eexists. split; [reflexivity |]. cbn.
    split; [apply list_elem_of_In; simpl; tauto |].
    split; [reflexivity | vm_compute; eauto]. }
  destruct x as [a |], y as [b |]; try exact Hother.
  rewrite classifyRelation_present.
  destruct (label_has_color a b duals) as [c Hc].
  assert (Hne : c <> "").
  { revert Hc. unfold App.label.
    repeat match goal with |- context [if ?g then _ else _] => destruct g end;
      vm_compute; intros [= <-]; discriminate. }
  apply String.eqb_neq in Hne.
  exists (Rel.mk (App.label a b duals) (Some c)). split.
  - do 2 f_equal. rewrite Hc. unfold Js.or. by rewrite Hne.
  - cbn [Rel.key Rel.color].
    split; [apply label_enumerated |]. split; [by rewrite Hc | eauto].
Qed.

(** X3: the label is ['Duality'] exactly when the two codes differ and the
    sorted, hyphen-joined key of the pair is in the set passed as [duals]. *)
Theorem label_duality_iff (a b : TypeRecord) (s : gset string) :
  label_of (App.classifyRelation (Some a) (Some b) (App.DualsSet s)) = Normal "Duality"
  <-> code a <> code b /\ Js.join "-" (Js.sort [code a; code b]) ∈ s.
Proof.
  rewrite label_of_present. unfold App.label, App.isIdentity, App.isDual.
  fold (App.key a b).
  destruct (String.eqb_spec (code a) (code b)) as [E | E].
  - split; [discriminate | tauto].
  - destruct (bool_decide_reflect (App.key a b ∈ s)) as [Hin | Hin].
    + tauto.
    + split; [| tauto].
      repeat match goal with |- context [if ?g then _ else _] => destruct g end;
        discriminate.
Qed.

(** X4: a pair labelled ['Activation'] has its leading and creative elements
    swapped, and a pair labelled ['Mirror'] has them equal; in both cases the
    codes differ and the pair is not in the dual set. *)
Theorem activation_and_mirror_sound (a b : TypeRecord) (duals : App.DualsArg) :
  (App.label a b duals = "Activation" ->
     leading a = creative b /\ creative a = leading b /\
     code a <> code b /\ App.isDual a b duals = false) /\
  (App.label a b duals = "Mirror" ->
     leading a = leading b /\ creative a = creative b /\
     code a <> code b /\ App.isDual a b duals = false).
Proof.
  unfold App.label, App.mirror, App.activator, App.sameLead, App.sameCreative,
    App.isIdentity.
  destruct (String.eqb_spec (code a) (code b)) as [E | E];
    [split; discriminate |].
  destruct (App.isDual a b duals); [split; discriminate |].
  destruct (String.eqb_spec (leading a) (creative b)),
    (String.eqb_spec (creative a) (leading b)),
    (String.eqb_spec (leading a) (leading b)),
    (String.eqb_spec (creative a) (creative b)); cbn;
    split; intros H; try done;
    repeat match type of H with context [if ?g then _ else _] => destruct g end;
    discriminate.
Qed.

Lemma activation_and_mirror_sound_witness :
  leading ILE = creative LII /\ creative ILE = leading LII /\
  code ILE <> code LII /\ App.isDual ILE LII (App.DualsSet App.DUALS) = false.
Proof.
  apply (activation_and_mirror_sound ILE LII (App.DualsSet App.DUALS)).
  vm_compute. reflexivity.
Defined.

(** X5: the label ['Super-ego'] is only ever returned when one of the two
    quadras is not among the four of [quadraOrder]; with the four known
    quadras, distance 2 goes to Conflict and distances 1 and 3 to Business or to
    an earlier rule, and equal quadras are excluded by the rule itself. *)
Theorem super_ego_needs_unknown_quadra (a b : TypeRecord) (duals : App.DualsArg) :
  label_of (App.classifyRelation (Some a) (Some b) duals) = Normal "Super-ego" ->
  Js.indexOf App.quadraOrder (quadra a) = (-1)%Z \/
  Js.indexOf App.quadraOrder (quadra b) = (-1)%Z.
Proof.
  rewrite label_of_present. intros [= H].
  assert (Hin : forall q, Js.indexOf App.quadraOrder q <> (-1)%Z -> q ∈ App.quadraOrder).
  { intros q. unfold Js.indexOf, App.quadraOrder. cbn [Js.indexOf_from].
    repeat match goal with
           | |- context [String.eqb ?x q] =>
               destruct (String.eqb_spec x q) as [<- | _];
               [intros _; apply list_elem_of_In; simpl; tauto |]
           end.
    intros Hq. exfalso. by apply Hq. }
  destruct (Z.eq_dec (Js.indexOf App.quadraOrder (quadra a)) (-1)) as [| Ha]; [tauto |].
  destruct (Z.eq_dec (Js.indexOf App.quadraOrder (quadra b)) (-1)) as [| Hb]; [tauto |].
  exfalso. revert H. apply superEgo_dead; by apply Hin.
Qed.

Lemma super_ego_needs_unknown_quadra_witness :
  Js.indexOf App.quadraOrder (quadra stray) = (-1)%Z \/
  Js.indexOf App.quadraOrder (quadra IEE) = (-1)%Z.
Proof.
  apply (super_ego_needs_unknown_quadra stray IEE (App.DualsSet App.DUALS)).
  vm_compute. reflexivity.
Defined.

(** X6: the labels that depend on the quadra distance come with that distance:
    a pair labelled ['Conflict'] is at distance 2, and a pair labelled
    ['Business'] at distance 1 or 3; neither is in the dual set. *)
Theorem conflict_and_business_distance (a b : TypeRecord) (duals : App.DualsArg) :
  (App.label a b duals = "Conflict" ->
     App.qd a b = 2%Z /\ quadra a <> quadra b /\ App.isDual a b duals = false) /\
  (App.label a b duals = "Business" ->
     (App.qd a b = 1%Z \/ App.qd a b = 3%Z) /\ App.isDual a b duals = false).
Proof.
  unfold App.label, App.conflict, App.business, App.sameQuadra.
  destruct (App.isIdentity a b); [split; discriminate |].
  destruct (App.isDual a b duals); [split; discriminate |].
  destruct (App.activator a b); [split; discriminate |].
  destruct (App.mirror a b); [split; discriminate |].
  destruct (App.semiDual a b); [split; discriminate |].
  destruct (App.extinguishment a b); [split; discriminate |].
  destruct (Z.eqb_spec (App.qd a b) 2), (Z.eqb_spec (App.qd a b) 1),
    (Z.eqb_spec (App.qd a b) 3),
    (String.eqb_spec (quadra a) (quadra b)); cbn;
    split; intros H; try done; try lia;
    repeat match type of H with context [if ?g then _ else _] => destruct g end;
    try discriminate; auto.
Qed.

Lemma conflict_and_business_distance_witness :
  App.qd ILE SEE = 2%Z /\ quadra ILE <> quadra SEE /\
  App.isDual ILE SEE (App.DualsSet App.DUALS) = false.
Proof.
  apply (conflict_and_business_distance ILE SEE (App.DualsSet App.DUALS)).
  vm_compute. reflexivity.
Defined.

(** ** The scraper beyond its failure policy *)

Lemma length_substring_le (n m : nat) (s : string) :
  (String.length (String.substring n m s) <= m)%nat.
Proof.
  revert n m. induction s as [| c s IH]; intros [| n] [| m]; cbn; try lia.
  - specialize (IH 0%nat m). lia.
  - apply (IH n 0%nat).
  - apply (IH n (S m)).
Qed.

Lemma substring_nonempty (m : nat) (s : string) :
  s <> "" -> String.substring 0 (S m) s <> "".
Proof. by destruct s. Qed.

(** The keys of the scraper's [TYPE_INFO] are the sixteen codes. *)
Lemma type_info_key (c : string) (i : Info.t) :
  Scraper.TYPE_INFO !! c = Some i -> c ∈ Scraper.TYPE_CODES.
Proof.
  intros H. apply elem_of_list_to_map_2 in H.
  apply list_elem_of_In in H. cbn in H.
  repeat (destruct H as [[= <- _] | H];
          [apply list_elem_of_In; simpl; tauto |]).
  destruct H.
Qed.

Lemma type_info_canonical (c : string) (i : Info.t) ov h r ti :
  Scraper.TYPE_INFO !! c = Some i ->
  canonical (mkTypeRecord c (Info.fullName i) (Info.alias i) (Info.quadra i)
               (Info.temperament i) (Info.leading i) (Info.creative i) ov h r ti).
Proof.
  intros H. exists i. cbn. repeat split; [| done].
  by apply (type_info_key c i).
Qed.

Section ScraperRuns.
Variable net : string -> nat -> Scraper.Network.
Variable env : gmap string string.
Variable json : string -> Js.completion (option Scraper.MwJson).
Variable URLSearchParams_toString : list (string * string) -> string.
Variables encodeURIComponent lead_paragraph first_paragraph collapse_spaces
  : string -> string.

Local Abbreviation scrapeAll :=
  (Scraper.scrapeAll net env json URLSearchParams_toString encodeURIComponent
     lead_paragraph first_paragraph collapse_spaces).
Local Abbreviation typesFromGitHub :=
  (Scraper.typesFromGitHub net first_paragraph collapse_spaces).
Local Abbreviation typesFromMediaWiki :=
  (Scraper.typesFromMediaWiki net env json URLSearchParams_toString
     encodeURIComponent lead_paragraph).
Local Abbreviation scrapeTypeViaMediaWiki :=
  (Scraper.scrapeTypeViaMediaWiki net env json URLSearchParams_toString
     encodeURIComponent lead_paragraph).
Local Abbreviation parseType := (Scraper.parseType first_paragraph collapse_spaces).
Local Abbreviation main :=
  (Scraper.main net env json URLSearchParams_toString encodeURIComponent
     lead_paragraph first_paragraph collapse_spaces).

(** A first attempt that succeeds ends the call: one request, no sleep. *)
Lemma fetchWithRetry_first_ok url opts tr :
  let T := default 8000%Z (Scraper.timeoutMs opts) in
  attempt_ok (net url (Scraper.requests tr)) T = true ->
  exists after res,
    net url (Scraper.requests tr) = Scraper.Responds after res /\
    Scraper.fetchWithRetry net url opts tr
    = (Normal res, (tr ++ [Scraper.Request url T])%list).
Proof.
  intros T Hok.
  destruct (fetchWithRetry_spec net url opts tr) as (n & H1 & _ & Htr & Hfail & Hlast).
  fold T in Htr, Hfail, Hlast.
  assert (n = 1%nat) as ->.
  { destruct n as [| [| n]]; [lia | done |].
    specialize (Hfail 0%nat ltac:(lia)). rewrite Nat.add_0_r in Hfail. congruence. }
  cbn in Htr, Hlast. rewrite Nat.add_0_r in Hlast.
  destruct (Scraper.fetchWithRetry net url opts tr) as [[res | e] tr'];
    cbn in Htr, Hlast; subst tr'.
  - destruct Hlast as [_ [after Hnet]]. by exists after, res.
  - destruct Hlast as [Hno _]. congruence.
Qed.

Lemma load_alive url tr :
  alive net url 8000 ->
  exists doc,
    Scraper.load net url tr = (Normal doc, (tr ++ [Scraper.Request url 8000])%list).
Proof.
  intros Hal.
  destruct (fetchWithRetry_first_ok url Scraper.no_options tr (Hal _))
    as (after & res & _ & H).
  exists (Scraper.body res). unfold Scraper.load, mbind, Scraper.Run_bind.
  by rewrite H.
Qed.

(** What a loop over the codes returns: the accumulator followed by one record
    per code, each the result of that code's step. *)
Lemma forEachCode_result (P : string -> TypeRecord -> Prop) step codes :
  (forall c t tr1 tr2, c ∈ codes -> step c tr1 = (Normal t, tr2) -> P c t) ->
  forall acc tr l tr',
    Scraper.forEachCode step codes acc tr = (Normal l, tr') ->
    exists ts, l = (acc ++ ts)%list /\ Forall2 P codes ts.
Proof.
  induction codes as [| c rest IH]; intros HP acc tr l tr' H.
  - cbn in H. injection H as <- <-. exists []. by rewrite app_nil_r.
  - cbn [Scraper.forEachCode] in H. unfold mbind, Scraper.Run_bind in H.
    destruct (step c tr) as [[t | e] tr1] eqn:Hstep; [| discriminate].
    apply IH in H as (ts & -> & Hts).
    + exists (t :: ts). rewrite <- app_assoc. split; [done |].
      constructor; [| done]. eapply HP; [| exact Hstep]. apply list_elem_of_here.
    + intros c' t' tr2 tr3 Hc'. apply HP. by apply list_elem_of_further.
Qed.

(** A loop all of whose steps are bound to return does return. *)
Lemma forEachCode_returns step codes :
  (forall c tr, c ∈ codes -> exists t tr', step c tr = (Normal t, tr')) ->
  forall acc tr, exists l tr', Scraper.forEachCode step codes acc tr = (Normal l, tr').
Proof.
  induction codes as [| c rest IH]; intros Hok acc tr.
  - by exists acc, tr.
  - cbn [Scraper.forEachCode]. unfold mbind, Scraper.Run_bind.
    destruct (Hok c tr (list_elem_of_here _ _)) as (t & tr1 & ->).
    apply IH. intros c' tr2 Hc'. apply Hok. by apply list_elem_of_further.
Qed.

Lemma parseType_facts doc c tr t tr' :
  parseType doc c tr = (Normal t, tr') ->
  tr' = tr /\ code t = c /\ canonical t /\
  (String.length (overview t) <= 280)%nat /\
  href t = github_page c /\ revId t = None /\ title t = None.
Proof.
  unfold Scraper.parseType, mbind, Scraper.Run_bind, Scraper.lift.
  destruct (Scraper.TYPE_INFO !! c) as [i |] eqn:Hi; cbn; [| discriminate].
  intros [= <- <-]. cbn.
  repeat split; [by apply type_info_canonical | ].
  destruct (String.eqb (first_paragraph doc) ""); [cbn; lia |].
  apply length_substring_le.
Qed.

Lemma scrapeTypeViaMediaWiki_facts c tr t tr' :
  scrapeTypeViaMediaWiki c tr = (Normal t, tr') ->
  code t = c /\ canonical t /\
  (1 <= String.length (overview t) <= 500)%nat /\
  is_Some (title t).
Proof.
  unfold Scraper.scrapeTypeViaMediaWiki, mbind at 1, Scraper.Run_bind at 1.
  destruct (Scraper.mwParsePage _ _ _ _ _ _) as [[parsed | e] tr1];
    cbv beta iota; [| discriminate].
  unfold Scraper.throw.
  destruct parsed as [p |]; cbn [mbind option_bind]; [| discriminate].
  destruct (Js.or (Scraper.text p) None) as [html |]; [| discriminate].
  unfold mbind, Scraper.Run_bind, Scraper.lift.
  destruct (Scraper.TYPE_INFO !! c) as [i |] eqn:Hi;
    cbn [Js.deref]; [| discriminate].
  unfold mret, Scraper.Run_ret.
  set (pageTitle := default c _).
  intros H. apply pair_equal_spec in H as [H _]. injection H as <-.
  cbn [code overview title].
  split; [done |]. split; [by apply type_info_canonical |]. split.
  - split; [| apply length_substring_le].
    set (ov := default "" _).
    assert (Hov : ov <> "").
    { subst ov. unfold Scraper.extractLeadParagraphFromHtml, Js.or.
      destruct (String.eqb_spec (lead_paragraph html) "") as [E | E]; cbn; [done |].
      apply String.eqb_neq in E. by rewrite E; cbn; apply String.eqb_neq. }
    destruct ov; [done | cbn; lia].
  - unfold Js.or. destruct (Scraper.displaytitle p) as [d |]; [| eauto].
    destruct (String.eqb d ""); eauto.
Qed.

Lemma typesFromGitHub_facts tr l tr' :
  typesFromGitHub tr = (Normal l, tr') ->
  map code l = Scraper.TYPE_CODES /\ Forall canonical l.
Proof.
  intros H. unfold Scraper.typesFromGitHub in H.
  apply (forEachCode_result (fun c t => code t = c /\ canonical t)) in H.
  - destruct H as (ts & -> & Hts). cbn [app].
    clear -Hts. induction Hts as [| c t cs ts [Hc Hcan] _ [IH1 IH2]]; [done |].
    cbn. split; [by f_equal | by constructor].
  - intros c t tr1 tr2 _. unfold mbind, Scraper.Run_bind.
    destruct (Scraper.load net _ tr1) as [[doc | e] tr3]; [| discriminate].
    intros Hp. apply parseType_facts in Hp. tauto.
Qed.

Lemma typesFromMediaWiki_facts tr l tr' :
  typesFromMediaWiki tr = (Normal l, tr') ->
  map code l = Scraper.TYPE_CODES /\ Forall canonical l.
Proof.
  intros H. unfold Scraper.typesFromMediaWiki in H.
  apply (forEachCode_result (fun c t => code t = c /\ canonical t)) in H.
  - destruct H as (ts & -> & Hts). cbn [app].
    clear -Hts. induction Hts as [| c t cs ts [Hc Hcan] _ [IH1 IH2]]; [done |].
    cbn. split; [by f_equal | by constructor].
  - intros c t tr1 tr2 _. unfold mbind at 1, Scraper.Run_bind at 1.
    destruct (scrapeTypeViaMediaWiki c tr1) as [[t0 | e] tr3] eqn:Hs; [| discriminate].
    cbn. intros [= <- _]. apply scrapeTypeViaMediaWiki_facts in Hs. tauto.
Qed.

Lemma typesFromGitHub_alive tr :
  (forall c, c ∈ Scraper.TYPE_CODES -> alive net (github_page c) 8000) ->
  exists l tr', typesFromGitHub tr = (Normal l, tr').
Proof.
  intros Hal. unfold Scraper.typesFromGitHub.
  apply forEachCode_returns. intros c tr0 Hc.
  destruct (load_alive (github_page c) tr0 (Hal c Hc)) as [doc Hdoc].
  unfold mbind, Scraper.Run_bind. unfold github_page in Hdoc. rewrite Hdoc.
  destruct (parseType_canonical first_paragraph collapse_spaces doc c
              (tr0 ++ [Scraper.Request (Scraper.base +:+ "/" +:+ c +:+ ".html") 8000])
              Hc) as (t & Ht & _).
  eauto.
Qed.

(** The GitHub loop on pages that all answer: one request per code, in the
    order of the codes, and nothing else. *)
Lemma github_loop_alive codes acc tr :
  (forall c, c ∈ codes -> c ∈ Scraper.TYPE_CODES /\ alive net (github_page c) 8000) ->
  exists l,
    Scraper.forEachCode
      (fun code => doc ← Scraper.load net (Scraper.base +:+ "/" +:+ code +:+ ".html");
                   parseType doc code)
      codes acc tr
    = (Normal l,
       (tr ++ map (fun c => Scraper.Request (github_page c) 8000) codes)%list).
Proof.
  revert acc tr. induction codes as [| c rest IH]; intros acc tr Hal.
  - exists acc. cbn. by rewrite app_nil_r.
  - destruct (Hal c (list_elem_of_here _ _)) as [Hc Hup].
    destruct (load_alive (github_page c) tr Hup) as [doc Hdoc].
    destruct (parseType_canonical first_paragraph collapse_spaces doc c
                (tr ++ [Scraper.Request (github_page c) 8000]) Hc) as (t & Ht & _).
    destruct (IH (acc ++ [t])%list (tr ++ [Scraper.Request (github_page c) 8000])%list)
      as [l Hl].
    { intros c' Hc'. apply Hal. by apply list_elem_of_further. }
    exists l. cbn [Scraper.forEachCode map]. unfold mbind at 1, Scraper.Run_bind at 1.
    unfold mbind at 1, Scraper.Run_bind at 1.
    unfold github_page in Hdoc at 1. rewrite Hdoc. rewrite Ht, Hl.
    by rewrite <- app_assoc.
Qed.

(** X7: [fetchWithRetry] never hands back a response that is not ok: what it
    returns is an ok response that the network gave to one of the requests of
    this very call, before that request's timer ran out. *)
Theorem fetchWithRetry_returns_ok_response url opts tr res tr' :
  Scraper.fetchWithRetry net url opts tr = (Normal res, tr') ->
  Scraper.ok res = true /\
  exists n after,
    (Scraper.requests tr <= n < Scraper.requests tr')%nat /\
    net url n = Scraper.Responds after res /\
    (after < default 8000 (Scraper.timeoutMs opts))%Z.
Proof.
  intros H.
  destruct (fetchWithRetry_spec net url opts tr) as (n & H1 & _ & Htr & _ & Hlast).
  rewrite H in Htr, Hlast. cbn in Htr, Hlast.
  destruct Hlast as [Hok [after Hnet]].
  rewrite Hnet in Hok. cbn in Hok. apply andb_prop in Hok as [Hlt Hok].
  split; [done |].
  exists (Scraper.requests tr + (n - 1))%nat, after.
  rewrite Htr, requests_retry_trace. repeat split; [lia | lia | done | lia].
Qed.

(** X8: a call of [fetchWithRetry] makes at least one request and at most the
    configured retry count plus two (one when that count is negative): the
    first attempt and up to [retries + 1] further ones. *)
Theorem fetchWithRetry_request_count url opts tr :
  let made :=
    (Scraper.requests (snd (Scraper.fetchWithRetry net url opts tr))
     - Scraper.requests tr)%nat in
  (1 <= made)%nat /\
  (Z.of_nat made <= Z.max 1 (default 2 (Scraper.retries opts) + 2))%Z.
Proof.
  destruct (fetchWithRetry_spec net url opts tr) as (n & H1 & H2 & Htr & _).
  cbv zeta. rewrite Htr, requests_retry_trace. lia.
Qed.

(** X10: when the network answers the first attempt with an ok response in
    time, the call returns that very response, which is ok and came before
    the timeout, after exactly one request and without sleeping. *)
Theorem first_attempt_success_is_immediate url opts tr :
  attempt_ok (net url (Scraper.requests tr)) (default 8000 (Scraper.timeoutMs opts))
  = true ->
  exists after res,
    net url (Scraper.requests tr) = Scraper.Responds after res /\
    (after < default 8000 (Scraper.timeoutMs opts))%Z /\
    Scraper.ok res = true /\
    Scraper.fetchWithRetry net url opts tr
    = (Normal res,
       (tr ++ [Scraper.Request url (default 8000 (Scraper.timeoutMs opts))])%list).
Proof.
  intros Hok.
  destruct (fetchWithRetry_first_ok url opts tr Hok) as (after & res & Hnet & Hrun).
  exists after, res. rewrite Hnet in Hok. cbn [attempt_ok] in Hok.
  apply andb_prop in Hok as [Hlt%Z.ltb_lt Hres]. done.
Qed.



(** X13: a record returned by [scrapeTypeViaMediaWiki], for a code that does
    not name an inherited property of the tables, carries the code asked for,
    is canonical, has an overview of 1 to 500 characters and a title; and it
    is made from the answer received: the call fetched the parse URL of the
    code's page, the body of the response it got decodes to JSON without an
    [error] member and with a [parse] member whose [text] is not empty, the
    revision is that answer's, and the overview is cut from the lead
    paragraph of that text, or is the stock sentence when there is none. *)
Theorem scrapeTypeViaMediaWiki_result c tr t tr' :
  Js.own_name c = true ->
  scrapeTypeViaMediaWiki c tr = (Normal t, tr') ->
  code t = c /\ canonical t /\
  (1 <= String.length (overview t) <= 500)%nat /\ is_Some (title t) /\
  exists res j p html,
    Scraper.fetchWithRetry net (mediawiki_url env URLSearchParams_toString c)
      Scraper.no_options tr = (Normal res, tr') /\
    json (Scraper.body res) = Normal (Some j) /\
    usable_answer (json (Scraper.body res)) = true /\
    Scraper.error j = None /\ Scraper.parse j = Some p /\
    Scraper.text p = Some html /\ html <> "" /\
    revId t = Scraper.revid p /\
    overview t
    = String.substring 0 500
        (if String.eqb (lead_paragraph html) "" then "Socionics type description."
         else lead_paragraph html).
Proof.
  intros _ H.
  destruct (scrapeTypeViaMediaWiki_facts c tr t tr' H) as (H1 & H2 & H3 & H4).
  repeat split; try done; try lia.
  revert H.
  unfold Scraper.scrapeTypeViaMediaWiki, Scraper.mwParsePage, Scraper.mwGet.
  cbv zeta. unfold Scraper.lift, Scraper.throw, mret, Scraper.Run_ret.
  unfold mbind, Scraper.Run_bind.
  change (Scraper.MW_API env +:+ "?" +:+ _)
    with (mediawiki_url env URLSearchParams_toString c).
  destruct (Scraper.fetchWithRetry net _ Scraper.no_options tr) as [[res | e] tr1];
    cbv beta iota; [| discriminate].
  unfold usable_answer.
  destruct (json (Scraper.body res)) as [[[[err |] [p |]] |] | e] eqn:Hj;
    cbn [Scraper.error Scraper.parse option_bind]; try discriminate.
  unfold Js.or at 1.
  destruct (Scraper.text p) as [html |] eqn:Htext; [| discriminate].
  destruct (String.eqb_spec html "") as [| Hne]; [discriminate |].
  destruct (Scraper.TYPE_INFO !! c) as [i |]; cbn [Js.deref]; [| discriminate].
  intros H. apply pair_equal_spec in H as [H <-]. injection H as <-.
  exists res, (Scraper.mkMwJson None (Some p)), p, html.
  cbn [revId overview Scraper.error Scraper.parse].
  repeat split; try done.
  - rewrite Hj. cbn [Scraper.error Scraper.parse]. rewrite Htext.
    apply String.eqb_neq in Hne. by rewrite Hne.
  - f_equal. unfold Scraper.extractLeadParagraphFromHtml, Js.or.
    destruct (String.eqb_spec (lead_paragraph html) "") as [E | E]; [done |].
    cbn [default]. apply String.eqb_neq in E. by rewrite E.
Qed.

(** X14: [parseType] leaves the trace alone; for a code of the table it returns
    a canonical record with that code, an overview of at most 280 characters
    and the GitHub page as link, and never a revision or title; for any other
    code, unless it names an inherited property of the table, it throws. *)
Theorem parseType_result doc c tr :
  Js.own_name c = true ->
  match Scraper.TYPE_INFO !! c with
  | Some _ =>
      exists t,
        parseType doc c tr = (Normal t, tr) /\
        code t = c /\ canonical t /\
        (String.length (overview t) <= 280)%nat /\
        href t = github_page c /\ revId t = None /\ title t = None
  | None => exists e, parseType doc c tr = (Throw e, tr)
  end.
Proof.
  intros _. destruct (Scraper.TYPE_INFO !! c) as [i |] eqn:Hi.
  - destruct (parseType_canonical first_paragraph collapse_spaces doc c tr
                (type_info_key c i Hi)) as (t & Ht & _).
    exists t. split; [done |].
    destruct (parseType_facts doc c tr t tr Ht). tauto.
  - unfold Scraper.parseType, mbind, Scraper.Run_bind, Scraper.lift.
    rewrite Hi. cbn. eauto.
Qed.

End ScraperRuns.

Lemma fetchWithRetry_returns_ok_response_witness :
  Scraper.ok (Scraper.mkResponse true 200 "<p>A type.</p>") = true /\
  exists n after,
    (Scraper.requests [] <= n < Scraper.requests [Scraper.Request "u" 8000])%nat /\
    all_up "u" n = Scraper.Responds after (Scraper.mkResponse true 200 "<p>A type.</p>") /\
    (after < default 8000 (Scraper.timeoutMs Scraper.no_options))%Z.
Proof.
  apply (fetchWithRetry_returns_ok_response all_up "u" Scraper.no_options []).
  vm_compute. reflexivity.
Defined.

Lemma fetchWithRetry_dead_requests_witness :
  Scraper.requests
    (snd (Scraper.fetchWithRetry mediawiki_down "https://wikisocion.net/w/api.php"
            Scraper.no_options []))
  = (Scraper.requests []
     + Z.to_nat (Z.max 1 (default 2%Z (Scraper.retries Scraper.no_options) + 2)%Z))%nat.
Proof.
  apply (fetchWithRetry_dead_requests mediawiki_down).
  intros n. vm_compute. reflexivity.
Defined.

Lemma first_attempt_success_is_immediate_witness :
  exists after res,
    all_up "u" (Scraper.requests []) = Scraper.Responds after res /\
    (after < default 8000 (Scraper.timeoutMs Scraper.no_options))%Z /\
    Scraper.ok res = true /\
    Scraper.fetchWithRetry all_up "u" Scraper.no_options []
    = (Normal res,
       ([] ++ [Scraper.Request "u" (default 8000 (Scraper.timeoutMs Scraper.no_options))])%list).
Proof.
  apply (first_attempt_success_is_immediate all_up "u" Scraper.no_options []).
  vm_compute. reflexivity.
Defined.


Lemma scrapeTypeViaMediaWiki_result_witness :
  exists t tr',
    Scraper.scrapeTypeViaMediaWiki all_up ∅ wiki_json query_string id id "LII" []
    = (Normal t, tr') /\
    code t = "LII" /\ canonical t /\
    (1 <= String.length (overview t) <= 500)%nat /\ is_Some (title t) /\
    exists res j p html,
      Scraper.fetchWithRetry all_up (mediawiki_url ∅ query_string "LII")
        Scraper.no_options [] = (Normal res, tr') /\
      wiki_json (Scraper.body res) = Normal (Some j) /\
      usable_answer (wiki_json (Scraper.body res)) = true /\
      Scraper.error j = None /\ Scraper.parse j = Some p /\
      Scraper.text p = Some html /\ html <> "" /\
      revId t = Scraper.revid p /\
      overview t
      = String.substring 0 500
          (if String.eqb (id html) "" then "Socionics type description."
           else id html).
Proof.
  pose (r := Scraper.scrapeTypeViaMediaWiki all_up ∅ wiki_json query_string id id "LII" []).
  assert (Hr : exists t tr', r = (Normal t, tr')).
  { destruct r as [[t | e] tr'] eqn:E; [eauto |].
    exfalso. assert (Hf : fst r = Throw e) by (by rewrite E).
    revert Hf. vm_compute. discriminate. }
  destruct Hr as (t & tr' & Hr). exists t, tr'. split; [exact Hr |].
  exact (scrapeTypeViaMediaWiki_result all_up ∅ wiki_json query_string id id
           "LII" [] t tr' eq_refl Hr).
Defined.

Lemma parseType_result_witness :
  exists e, Scraper.parseType id id "<p>A page.</p>" "XYZ" [] = (Throw e, []).
Proof.
  apply (parseType_result all_up no_json id id id id "<p>A page.</p>" "XYZ" []).
  reflexivity.
Defined.


(** ** Strings: case, separators *)

Lemma upper_char_idem (c : ascii) : Js.upper_char (Js.upper_char c) = Js.upper_char c.
Proof. destruct c as [[] [] [] [] [] [] [] []]; reflexivity. Qed.

Lemma lower_char_idem (c : ascii) : Js.lower_char (Js.lower_char c) = Js.lower_char c.
Proof. destruct c as [[] [] [] [] [] [] [] []]; reflexivity. Qed.

Lemma upper_char_slash (c : ascii) :
  Ascii.eqb (Js.upper_char c) "/" = Ascii.eqb c "/".
Proof. destruct c as [[] [] [] [] [] [] [] []]; reflexivity. Qed.

Lemma toUpperCase_idem (s : string) :
  Js.toUpperCase (Js.toUpperCase s) = Js.toUpperCase s.
Proof.
  induction s as [| c s IH]; [done |].
  cbn. f_equal; [apply upper_char_idem | exact IH].
Qed.

Lemma toLowerCase_idem (s : string) :
  Js.toLowerCase (Js.toLowerCase s) = Js.toLowerCase s.
Proof.
  induction s as [| c s IH]; [done |].
  cbn. f_equal; [apply lower_char_idem | exact IH].
Qed.

Lemma segment_toUpperCase (s : string) : segment (Js.toUpperCase s) = segment s.
Proof.
  unfold segment. f_equal; [by destruct s |].
  induction s as [| c s IH]; [done |].
  cbn [no_char Js.toUpperCase Js.map_chars].
  rewrite upper_char_slash. f_equal. exact IH.
Qed.

Lemma split_no_sep (sep : ascii) (s : string) :
  no_char sep s = true -> Js.split sep s = [s].
Proof.
  induction s as [| c s IH]; [done |].
  cbn [Js.split no_char]. intros [Hc Hs]%andb_prop. apply negb_true_iff in Hc.
  by rewrite Hc, (IH Hs).
Qed.

Lemma append_cons (c : ascii) (x y : string) :
  String c x +:+ y = String c (x +:+ y).
Proof. reflexivity. Qed.

Lemma append_nil (y : string) : "" +:+ y = y.
Proof. reflexivity. Qed.

Lemma split_app_sep (sep : ascii) (x r : string) :
  no_char sep x = true ->
  Js.split sep (x +:+ String sep r) = x :: Js.split sep r.
Proof.
  induction x as [| c x IH].
  - intros _. rewrite append_nil. cbn [Js.split]. by rewrite Ascii.eqb_refl.
  - cbn [no_char]. intros [Hc Hx]%andb_prop. apply negb_true_iff in Hc.
    rewrite append_cons. cbn [Js.split]. by rewrite Hc, (IH Hx).
Qed.

(** No piece of a split contains the separator. *)
Lemma split_pieces (sep : ascii) (s : string) :
  Forall (fun x => no_char sep x = true) (Js.split sep s).
Proof.
  induction s as [| c s IH]; [by repeat constructor |].
  cbn [Js.split]. destruct (Ascii.eqb c sep) eqn:Hc; [by constructor |].
  destruct (Js.split sep s) as [| x xs];
    [by repeat constructor; cbn [no_char]; rewrite Hc |].
  apply Forall_cons in IH as [Hx Hxs].
  constructor; [| done]. cbn [no_char]. by rewrite Hc, Hx.
Qed.

Lemma path_segments (raw : string) :
  Forall (fun x => segment x = true)
         (List.filter Js.nonempty (Js.split "/" raw)).
Proof.
  pose proof (split_pieces "/" raw) as H.
  induction H as [| x xs Hx _ IH]; [constructor |].
  cbn. destruct (Js.nonempty x) eqn:Hne; [| done].
  constructor; [| done]. unfold segment. by rewrite Hne, Hx.
Qed.

(** ** Hash routing *)

(** What [hashToRoute] can return: a route that survives the address bar, or
    a comparison that lacks one of its two codes. *)
Lemma hashToRoute_image (hash : option string) :
  wf_route (App.hashToRoute hash) = true \/
  (App.Route.name (App.hashToRoute hash) = "compare" /\
   Js.truthy_str (App.Route.a (App.hashToRoute hash))
   && Js.truthy_str (App.Route.b (App.hashToRoute hash)) = false).
Proof.
  unfold App.hashToRoute. cbv zeta.
  pose proof (path_segments (App.strip_hash (default "" (Js.or hash (Some ""))))) as Hseg.
  set (parts := List.filter _ _) in *. clearbody parts.
  assert (Hup : forall x, segment x = true ->
            opt_segment (Js.toUpperCase <$> Some x) = true /\
            opt_upper (Js.toUpperCase <$> Some x) = true /\
            Js.truthy_str (Some x) = true).
  { intros x Hx.
    change (opt_segment (Js.toUpperCase <$> Some x)) with (segment (Js.toUpperCase x)).
    change (opt_upper (Js.toUpperCase <$> Some x))
      with (String.eqb (Js.toUpperCase (Js.toUpperCase x)) (Js.toUpperCase x)).
    change (Js.truthy_str (Some x)) with (Js.nonempty x).
    rewrite segment_toUpperCase, toUpperCase_idem, String.eqb_refl.
    split; [done |]. split; [done |].
    unfold segment in Hx. by apply andb_prop in Hx as [? _]. }
  destruct parts as [| root rest]; [by left |].
  apply Forall_cons in Hseg as [Hroot Hrest]. cbn [lookup list_lookup].
  destruct (String.eqb root ""); [by left |].
  destruct (existsb (String.eqb root) App.PLAIN_ROUTES) eqn:Hplain.
  { left. unfold wf_route. cbn [App.Route.name App.Route.plain].
    by rewrite Hplain, orb_true_r. }
  destruct (String.eqb root "type").
  { destruct rest as [| a rest]; [by left |].
    apply Forall_cons in Hrest as [Ha _]. cbn [lookup list_lookup].
    destruct (Hup a Ha) as (H1 & H2 & ->).
    left. unfold wf_route. cbn -[opt_segment opt_upper fmap]. by rewrite H1, H2. }
  destruct (String.eqb root "glossary").
  { left. destruct rest as [| a rest]; [done |].
    apply Forall_cons in Hrest as [Ha _].
    unfold wf_route. cbn. by rewrite Ha. }
  destruct (String.eqb root "compare"); [| by left].
  destruct rest as [| a [| b rest]].
  - by left.
  - right. cbn [lookup list_lookup]. split; [done |].
    cbn. apply andb_false_r.
  - apply Forall_cons in Hrest as [Ha Hrest].
    apply Forall_cons in Hrest as [Hb _]. cbn [lookup list_lookup].
    destruct (Hup a Ha) as (H1 & H2 & ->). destruct (Hup b Hb) as (H3 & H4 & ->).
    left. unfold wf_route. cbn -[opt_segment opt_upper fmap].
    by rewrite H1, H2, H3, H4.
Qed.

Lemma hashToRoute_name (hash : option string) :
  App.Route.name (App.hashToRoute hash) ∈ App.ROUTE_NAMES.
Proof.
  unfold App.hashToRoute. cbv zeta. set (parts := List.filter _ _). clearbody parts.
  destruct (parts !! 0%nat) as [root |]; [| apply list_elem_of_In; simpl; tauto].
  destruct (String.eqb root ""); [apply list_elem_of_In; simpl; tauto |].
  destruct (existsb (String.eqb root) App.PLAIN_ROUTES) eqn:Hplain.
  { cbn [App.Route.name App.Route.plain].
    apply existsb_exists in Hplain as (x & Hx & Heq).
    apply String.eqb_eq in Heq. subst x.
    apply list_elem_of_In. cbn in Hx |- *. tauto. }
  repeat match goal with
         | |- context [if ?g then _ else _] => destruct g
         end; apply list_elem_of_In; simpl; tauto.
Qed.

Lemma append_nil_r (x : string) : x +:+ "" = x.
Proof. induction x as [| c x IH]; [done |]. by rewrite append_cons, IH. Qed.

(** A hash whose first path segment names no page leads home. *)
Lemma hashToRoute_unknown (root rest : string) :
  segment root = true ->
  ~ In root App.ROUTE_NAMES ->
  App.hashToRoute (Some (String "#" (String "/" root) +:+ String "/" rest))
  = App.Route.plain "home"
  /\ App.hashToRoute (Some (String "#" (String "/" root))) = App.Route.plain "home"
  /\ App.hashToRoute (Some (String "#" root +:+ String "/" rest))
     = App.Route.plain "home"
  /\ App.hashToRoute (Some (String "#" root)) = App.Route.plain "home".
Proof.
  intros Hseg Hno. pose proof Hseg as [Hne Hslash]%andb_prop.
  assert (Hhead : forall parts,
            match (root :: parts) !! 0%nat with
            | Some r =>
                if String.eqb r "" then App.Route.plain "home"
                else if existsb (String.eqb r) App.PLAIN_ROUTES then App.Route.plain r
                else if String.eqb r "type" then
                  if Js.truthy_str ((root :: parts) !! 1%nat)
                  then App.Route.mk "type" (Js.toUpperCase <$> (root :: parts) !! 1%nat)
                         None None None
                  else App.Route.plain "types"
                else if String.eqb r "glossary" then
                  App.Route.mk "glossary" None ((root :: parts) !! 1%nat) None None
                else if String.eqb r "compare" then
                  App.Route.mk "compare" None None
                    (if Js.truthy_str ((root :: parts) !! 1%nat)
                     then Js.toUpperCase <$> (root :: parts) !! 1%nat else None)
                    (if Js.truthy_str ((root :: parts) !! 2%nat)
                     then Js.toUpperCase <$> (root :: parts) !! 2%nat else None)
                else App.Route.plain "home"
            | None => App.Route.plain "home"
            end = App.Route.plain "home").
  { intros parts. cbn [lookup list_lookup].
    cbn [In App.ROUTE_NAMES] in Hno.
    assert (Hneq : forall m, root <> m -> String.eqb root m = false)
      by (intros m; apply String.eqb_neq).
    unfold Js.nonempty in Hne. apply negb_true_iff in Hne. rewrite Hne.
    cbn [existsb App.PLAIN_ROUTES].
    rewrite !Hneq by (intros E; apply Hno; rewrite E; tauto).
    reflexivity. }
  assert (Hsplit1 : forall r, List.filter Js.nonempty (Js.split "/" (root +:+ String "/" r))
                              = root :: List.filter Js.nonempty (Js.split "/" r)).
  { intros r. rewrite split_app_sep by done. cbn [List.filter]. by rewrite Hne. }
  assert (Hsplit0 : List.filter Js.nonempty (Js.split "/" root) = [root]).
  { rewrite split_no_sep by done. cbn [List.filter]. by rewrite Hne. }
  assert (Hstrip : forall r, App.strip_hash (String "#" (root +:+ r)) = root +:+ r).
  { intros r. destruct root as [| ch root']; [done |].
    cbn [no_char] in Hslash. apply andb_prop in Hslash as [Hch _].
    rewrite append_cons. cbn [App.strip_hash].
    destruct ch as [[] [] [] [] [] [] [] []]; try reflexivity. discriminate Hch. }
  unfold App.hashToRoute. cbv zeta. cbn [Js.or]. repeat split.
  - change (String.eqb (String "#" (String "/" root) +:+ String "/" rest) "") with false.
    cbn [default]. unfold id. change (App.strip_hash _) with (root +:+ String "/" rest).
    rewrite Hsplit1. apply Hhead.
  - change (String.eqb (String "#" (String "/" root)) "") with false.
    cbn [default]. unfold id. change (App.strip_hash _) with root.
    rewrite Hsplit0. apply Hhead.
  - change (String.eqb (String "#" root +:+ String "/" rest) "") with false.
    cbn [default]. unfold id.
    change (String "#" root +:+ String "/" rest)
      with (String "#" (root +:+ String "/" rest)).
    rewrite Hstrip, Hsplit1. apply Hhead.
  - change (String.eqb (String "#" root) "") with false.
    cbn [default]. unfold id. pose proof (Hstrip "") as Hs0.
    rewrite append_nil_r in Hs0. rewrite Hs0, Hsplit0. apply Hhead.
Qed.

(** X15: whatever the address bar holds, [hashToRoute] returns a route whose
    name is one of the eleven pages the application renders; a hash that is
    absent or empty, or holds the hash sign alone or with a slash, leads
    home, and so does a hash whose first path segment, after the hash sign
    and an optional slash, names none of the eleven pages, whatever
    follows it. *)
Theorem hashToRoute_known_page (hash : option string) :
  App.Route.name (App.hashToRoute hash) ∈ App.ROUTE_NAMES
  /\ (hash = None \/ hash = Some "" \/ hash = Some "#" \/ hash = Some "#/" ->
      App.hashToRoute hash = App.Route.plain "home")
  /\ (forall slash root rest,
        segment root = true ->
        ~ In root App.ROUTE_NAMES ->
        (slash = "" \/ slash = "/") ->
        (rest = "" \/ exists r, rest = String "/" r) ->
        hash = Some ("#" +:+ slash +:+ root +:+ rest) ->
        App.hashToRoute hash = App.Route.plain "home").
Proof.
  split; [apply hashToRoute_name |]. split.
  - intros [-> | [-> | [-> | ->]]]; reflexivity.
  - intros slash root rest Hseg Hno Hslash Hrest ->.
    destruct (hashToRoute_unknown root) with (rest := match rest with
                                                     | String _ r => r
                                                     | EmptyString => EmptyString
                                                     end)
      as (H1 & H2 & H3 & H4); [done | done |].
    destruct Hslash as [-> | ->], Hrest as [-> | [r ->]];
      rewrite ?append_nil, ?append_cons, ?append_nil_r;
      rewrite ?append_nil; assumption.
Qed.

Ltac tidy_bool H :=
  cbn [opt_segment opt_upper absent andb orb] in H;
  repeat rewrite ?andb_true_r, ?andb_false_r, ?orb_false_r in H;
  try discriminate H.

(** A well-formed route survives the address bar. *)
Lemma wf_route_round_trip (r : App.Route.t) :
  wf_route r = true ->
  App.hashToRoute (Some (App.routeToHash r)) = r.
Proof.
  assert (Hseg : forall x, segment x = true ->
            Js.nonempty x = true /\ no_char "/" x = true /\ Js.split "/" x = [x]).
  { intros x [H1 H2]%andb_prop. repeat split; [done | done | by apply split_no_sep]. }
  destruct r as [n c f a b]. unfold wf_route.
  cbn [App.Route.name App.Route.code App.Route.focus App.Route.a App.Route.b].
  intros Hwf.
  (* a plain page carries no parameter *)
  assert (Hplain : forall m, n = m ->
            (String.eqb m "home" || existsb (String.eqb m) App.PLAIN_ROUTES) = true ->
            App.hashToRoute (Some (App.routeToHash (App.Route.plain m)))
            = App.Route.plain m ->
            App.hashToRoute (Some (App.routeToHash (App.Route.mk n c f a b)))
            = App.Route.mk n c f a b).
  { intros m -> Hm Hgoal. rewrite Hm in Hwf.
    destruct c, f, a, b; try discriminate Hwf. exact Hgoal. }
  destruct (String.eqb_spec n "home"); [by apply (Hplain "home") |].
  destruct (String.eqb_spec n "start"); [by apply (Hplain "start") |].
  destruct (String.eqb_spec n "types"); [by apply (Hplain "types") |].
  destruct (String.eqb_spec n "relations"); [by apply (Hplain "relations") |].
  destruct (String.eqb_spec n "theory"); [by apply (Hplain "theory") |].
  destruct (String.eqb_spec n "functions"); [by apply (Hplain "functions") |].
  destruct (String.eqb_spec n "library"); [by apply (Hplain "library") |].
  destruct (String.eqb_spec n "about"); [by apply (Hplain "about") |].
  clear Hplain.
  assert (Hnot : existsb (String.eqb n) App.PLAIN_ROUTES = false).
  { cbn [existsb App.PLAIN_ROUTES].
    repeat match goal with
           | H : n <> ?m |- _ => apply String.eqb_neq in H; rewrite H; clear H
           end.
    reflexivity. }
  rewrite Hnot in Hwf. cbn [orb] in Hwf. clear Hnot.
  destruct (String.eqb_spec n "type") as [-> | _].
  { destruct c as [c |], f, a, b; tidy_bool Hwf.
    apply andb_prop in Hwf as [Hc Hu]. apply String.eqb_eq in Hu.
    destruct (Hseg c Hc) as (Hne & _ & Hsplit).
    unfold App.hashToRoute. cbv zeta.
    replace (App.strip_hash _) with ("type" +:+ String "/" c);
      [| unfold App.routeToHash; cbn [App.Route.name App.Route.code Js.truthy_str];
         rewrite Hne; reflexivity ].
    rewrite split_app_sep by reflexivity. rewrite Hsplit.
    cbn [List.filter]. rewrite Hne.
    change (Js.nonempty "type") with true. cbv iota.
    cbn [lookup list_lookup]. change (String.eqb "type" "") with false.
    change (existsb (String.eqb "type") App.PLAIN_ROUTES) with false.
    change (String.eqb "type" "type") with true. cbv iota.
    cbn [Js.truthy_str fmap option_fmap option_map]. by rewrite Hne, Hu. }
  destruct (String.eqb_spec n "glossary") as [-> | _].
  { destruct c, f as [f |], a, b; tidy_bool Hwf; [| reflexivity].
    destruct (Hseg f Hwf) as (Hne & _ & Hsplit).
    unfold App.hashToRoute. cbv zeta.
    replace (App.strip_hash _) with ("glossary" +:+ String "/" f);
      [| unfold App.routeToHash; cbn [App.Route.name App.Route.focus Js.truthy_str];
         rewrite Hne; reflexivity ].
    rewrite split_app_sep by reflexivity. rewrite Hsplit.
    cbn [List.filter]. rewrite Hne.
    change (Js.nonempty "glossary") with true. cbv iota.
    cbn [lookup list_lookup]. change (String.eqb "glossary" "") with false.
    change (existsb (String.eqb "glossary") App.PLAIN_ROUTES) with false.
    change (String.eqb "glossary" "type") with false.
    change (String.eqb "glossary" "glossary") with true. reflexivity. }
  destruct (String.eqb_spec n "compare") as [-> | _]; [| discriminate Hwf].
  destruct c, f, a as [a |], b as [b |]; tidy_bool Hwf; [| reflexivity].
  apply andb_prop in Hwf as [Hwf Hub]. apply andb_prop in Hwf as [Hwf Hb].
  apply andb_prop in Hwf as [Ha Hua]. apply String.eqb_eq in Hua, Hub.
  destruct (Hseg a Ha) as (Hna & Hnoa & Hsa). destruct (Hseg b Hb) as (Hnb & _ & Hsb).
  unfold App.hashToRoute. cbv zeta.
  replace (App.strip_hash _)
    with ("compare" +:+ String "/" (a +:+ String "/" b));
    [| unfold App.routeToHash;
       cbn [App.Route.name App.Route.a App.Route.b Js.truthy_str];
       rewrite Hna, Hnb; reflexivity ].
  rewrite split_app_sep by reflexivity.
  rewrite (split_app_sep "/" a b Hnoa), Hsb.
  cbn [List.filter]. rewrite Hna, Hnb.
  change (Js.nonempty "compare") with true. cbv iota.
  cbn [lookup list_lookup]. change (String.eqb "compare" "") with false.
  change (existsb (String.eqb "compare") App.PLAIN_ROUTES) with false.
  change (String.eqb "compare" "type") with false.
  change (String.eqb "compare" "glossary") with false.
  change (String.eqb "compare" "compare") with true. cbv iota.
  cbn [Js.truthy_str fmap option_fmap option_map]. by rewrite Hna, Hnb, Hua, Hub.
Qed.

(** X16: among the routes whose code parameters are in ASCII, those that
    survive the address bar are exactly the well-formed ones: turning such a
    route into a hash and reading the hash back gives the same route if and
    only if the route is well-formed. *)
Theorem route_round_trip (r : App.Route.t) :
  ascii_route r = true ->
  (App.hashToRoute (Some (App.routeToHash r)) = r <-> wf_route r = true).
Proof.
  intros _. split; [| apply wf_route_round_trip].
  intros H.
  destruct (hashToRoute_image (Some (App.routeToHash r))) as [Hwf | [Hname Hpartial]];
    rewrite H in *; [exact Hwf |].
  assert (Hh : App.routeToHash r = "#/compare").
  { unfold App.routeToHash. rewrite Hname, Hpartial. reflexivity. }
  rewrite Hh in H. rewrite <- H. reflexivity.
Qed.

Lemma route_round_trip_witness :
  App.hashToRoute
    (Some (App.routeToHash (App.Route.mk "compare" None None (Some "LII") (Some "ESE"))))
  = App.Route.mk "compare" None None (Some "LII") (Some "ESE")
  <-> wf_route (App.Route.mk "compare" None None (Some "LII") (Some "ESE")) = true.
Proof.
  apply (route_round_trip (App.Route.mk "compare" None None (Some "LII") (Some "ESE"))).
  reflexivity.
Defined.

(** X17: normalising a hash is idempotent: the hash that [routeToHash] writes
    for the route read from any hash is read back as a route that writes the
    same hash again. *)
Theorem canonical_hash_stable (hash : option string) :
  let canonical_hash := App.routeToHash (App.hashToRoute hash) in
  App.routeToHash (App.hashToRoute (Some canonical_hash)) = canonical_hash.
Proof.
  cbv zeta. destruct (hashToRoute_image hash) as [Hwf | [Hname Hpartial]].
  - by rewrite wf_route_round_trip.
  - assert (Hh : App.routeToHash (App.hashToRoute hash) = "#/compare").
    { unfold App.routeToHash at 1. rewrite Hname, Hpartial. reflexivity. }
    rewrite Hh. reflexivity.
Qed.

(** ** Search *)

Lemma map_chars_app (f : ascii -> ascii) (a b : string) :
  Js.map_chars f (a +:+ b) = Js.map_chars f a +:+ Js.map_chars f b.
Proof.
  induction a as [| c a IH]; [done |].
  rewrite append_cons. cbn [Js.map_chars]. by rewrite IH, append_cons.
Qed.

Lemma map_chars_length (f : ascii -> ascii) (s : string) :
  String.length (Js.map_chars f s) = String.length s.
Proof. induction s as [| c s IH]; [done |]. cbn. by rewrite IH. Qed.

Lemma map_chars_drop (f : ascii -> ascii) (n : nat) (s : string) :
  Js.map_chars f (Js.drop n s) = Js.drop n (Js.map_chars f s).
Proof.
  revert s. induction n as [| n IH]; intros [| c s]; try done.
  cbn [Js.drop Js.map_chars]. apply IH.
Qed.

Lemma map_chars_substring0 (f : ascii -> ascii) (m : nat) (s : string) :
  Js.map_chars f (String.substring 0 m s) = String.substring 0 m (Js.map_chars f s).
Proof.
  revert s. induction m as [| m IH]; intros [| c s]; try done.
  cbn [String.substring Js.map_chars]. by rewrite IH.
Qed.

Lemma prefix_nil (s : string) : String.prefix "" s = true.
Proof. by destruct s. Qed.

Lemma prefix_app (q s r : string) :
  String.prefix q s = true -> String.prefix q (s +:+ r) = true.
Proof.
  revert s. induction q as [| a q IH]; intros s; [intros _; apply prefix_nil |].
  destruct s as [| b s]; [done |].
  rewrite append_cons. cbn [String.prefix].
  destruct (ascii_dec a b); [apply IH | done].
Qed.

Lemma includes_app_l (s r q : string) :
  Js.includes s q = true -> Js.includes (s +:+ r) q = true.
Proof.
  induction s as [| c s IH].
  - cbn [Js.includes]. rewrite orb_false_r. intros H.
    apply (prefix_app _ _ r) in H. rewrite append_nil in *.
    destruct r; cbn [Js.includes]; by rewrite H.
  - cbn [Js.includes]. intros [H | H]%orb_prop.
    + apply (prefix_app _ _ r) in H. rewrite append_cons in *.
      cbn [Js.includes]. by rewrite H.
    + rewrite append_cons. cbn [Js.includes]. rewrite (IH H). apply orb_true_r.
Qed.

Lemma includes_app_r (p s q : string) :
  Js.includes s q = true -> Js.includes (p +:+ s) q = true.
Proof.
  intros H. induction p as [| c p IH]; [by rewrite append_nil |].
  rewrite append_cons. cbn [Js.includes]. rewrite IH. apply orb_true_r.
Qed.

Lemma includes_join (sep q v : string) (l : list string) :
  In v l -> Js.includes v q = true -> Js.includes (Js.join sep l) q = true.
Proof.
  unfold Js.join. intros Hin Hv. induction l as [| x l IH]; [done |].
  destruct l as [| y l].
  - destruct Hin as [-> | []]. exact Hv.
  - change (String.concat sep (x :: y :: l))
      with (x +:+ (sep +:+ String.concat sep (y :: l))).
    destruct Hin as [-> | Hin].
    + by apply includes_app_l.
    + apply includes_app_r, includes_app_r. by apply IH.
Qed.

Lemma toLowerCase_join (sep : string) (l : list string) :
  Js.toLowerCase (Js.join sep l)
  = Js.join (Js.toLowerCase sep) (map Js.toLowerCase l).
Proof.
  unfold Js.join, Js.toLowerCase. induction l as [| x l IH]; [done |].
  destruct l as [| y l]; [done |].
  change (String.concat sep (x :: y :: l))
    with (x +:+ (sep +:+ String.concat sep (y :: l))).
  rewrite !map_chars_app, IH. reflexivity.
Qed.

(** A field that contains the query puts it in the haystack. *)
Lemma haystack_includes (q : string) (fields hay : list string) :
  incl fields hay ->
  existsb (fun v => Js.includes (Js.toLowerCase v) q) fields = true ->
  Js.includes (Js.toLowerCase (Js.join " " hay)) q = true.
Proof.
  intros Hsub (v & Hv & Hq)%existsb_exists.
  rewrite toLowerCase_join.
  apply (includes_join _ _ (Js.toLowerCase v)); [| exact Hq].
  apply in_map, Hsub, Hv.
Qed.

Lemma nonempty_join_two (a b : string) (l : list string) :
  Js.nonempty (Js.toLowerCase (Js.join " " (a :: b :: l))) = true.
Proof.
  unfold Js.join.
  change (String.concat " " (a :: b :: l))
    with (a +:+ (" " +:+ String.concat " " (b :: l))).
  unfold Js.toLowerCase. rewrite map_chars_app.
  destruct (Js.map_chars Js.lower_char a); [| done].
  by rewrite append_nil.
Qed.

Lemma fold_push_map {A B : Type} (f : A -> B) (l : list A) (init : list B) :
  fold_left (fun acc x => (acc ++ [f x])%list) l init = (init ++ map f l)%list.
Proof.
  revert init. induction l as [| x l IH]; intros init; cbn [fold_left map].
  - by rewrite app_nil_r.
  - by rewrite IH, <- app_assoc.
Qed.

Lemma buildSearchEntries_entries (types : list TypeRecord) (glossary : list Gloss.t) :
  Loaders.buildSearchEntries (Some types) (Some glossary)
  = (map type_entry types ++ map gloss_entry glossary)%list.
Proof.
  unfold Loaders.buildSearchEntries. cbv zeta.
  rewrite (fold_push_map gloss_entry), (fold_push_map type_entry). reflexivity.
Qed.

Lemma type_entry_hit (q : string) (t : TypeRecord) :
  App.type_matches q t = true -> index_hit q (type_entry t) = true.
Proof.
  intros H. unfold index_hit, type_entry. cbn [Entry.haystack].
  rewrite nonempty_join_two. cbn [andb].
  revert H. apply haystack_includes.
  intros v Hv. cbn in Hv |- *. tauto.
Qed.

Lemma gloss_entry_hit (q : string) (g : Gloss.t) :
  App.gloss_matches q g = true -> index_hit q (gloss_entry g) = true.
Proof.
  intros H. unfold index_hit, gloss_entry. cbn [Entry.haystack].
  rewrite nonempty_join_two. cbn [andb].
  revert H. apply haystack_includes.
  intros v Hv. exact Hv.
Qed.

Lemma In_firstn {A : Type} (n : nat) (l : list A) (x : A) :
  In x (firstn n l) -> In x l.
Proof.
  intros H. apply list_elem_of_In. apply list_elem_of_In in H.
  by apply (subseteq_take n l).
Qed.

(** X18: with no search index loaded the search box tests six fields of a
    type and two of a glossary entry one by one; every result it then gives
    is an entry of the index that [buildSearchEntries] makes from the same
    data, less its haystack, and that entry passes the test of the indexed
    search for the same query.  The indexed search shows the first ten
    entries that pass, so it shows that entry too whenever no more than ten
    entries of the index pass; when more do, it may be cut off. *)
Theorem fallback_hits_are_index_hits (types : list TypeRecord)
    (glossary : list Gloss.t) (relations : list Relation.t) (query : string)
    (e : Entry.t) :
  In e (App.results None (Some types) (Some glossary) (Some relations) None query) ->
  exists e',
    In e' (Loaders.buildSearchEntries (Some types) (Some glossary))
    /\ e = without_haystack e'
    /\ index_hit (Js.toLowerCase (Js.trim query)) e' = true
    /\ ((length (List.filter (index_hit (Js.toLowerCase (Js.trim query)))
                   (Loaders.buildSearchEntries (Some types) (Some glossary)))
         <= 10)%nat ->
        In e' (App.results None (Some types) (Some glossary) (Some relations)
                 (Some (Loaders.buildSearchEntries (Some types) (Some glossary)))
                 query)).
Proof.
  unfold App.results. cbn [Js.truthy_str]. cbv zeta.
  set (q := Js.toLowerCase (Js.trim query)).
  change (fun e : Entry.t => match Entry.haystack e with
                             | Some h => Js.nonempty h && Js.includes h q
                             | None => false
                             end) with (index_hit q).
  destruct (Js.nonempty q); cbn [negb]; [| intros []].
  intros H%In_firstn.
  assert (Hshown : forall e',
            In e' (Loaders.buildSearchEntries (Some types) (Some glossary)) ->
            index_hit q e' = true ->
            (length (List.filter (index_hit q)
                       (Loaders.buildSearchEntries (Some types) (Some glossary)))
             <= 10)%nat ->
            In e' (firstn 10 (List.filter (index_hit q)
                     (Loaders.buildSearchEntries (Some types) (Some glossary))))).
  { intros e' Hin Hhit Hlen. rewrite firstn_all2 by exact Hlen.
    apply filter_In. by split. }
  rewrite buildSearchEntries_entries in *.
  apply in_app_or in H as [H | H]; apply in_map_iff in H as (x & <- & Hx);
    apply filter_In in Hx as [Hx Hq].
  - assert (Hin : In (type_entry x) (map type_entry types ++ map gloss_entry glossary))
      by (apply in_or_app; left; by apply in_map).
    exists (type_entry x). split; [exact Hin |]. split; [reflexivity |].
    split; [by apply type_entry_hit |].
    apply Hshown; [exact Hin | by apply type_entry_hit].
  - assert (Hin : In (gloss_entry x) (map type_entry types ++ map gloss_entry glossary))
      by (apply in_or_app; right; by apply in_map).
    exists (gloss_entry x). split; [exact Hin |]. split; [reflexivity |].
    split; [by apply gloss_entry_hit |].
    apply Hshown; [exact Hin | by apply gloss_entry_hit].
Qed.

Lemma fallback_hits_are_index_hits_witness :
  exists e',
    In e' (Loaders.buildSearchEntries (Some [ILE; LII; ESE]) (Some Loaders.buildGlossary))
    /\ Entry.mk "gloss" "Ti" None None None (Some "Ti")
         (Some "Introverted logic - structure, definitions, consistency.") None
       = without_haystack e'
    /\ index_hit (Js.toLowerCase (Js.trim " Structure ")) e' = true
    /\ ((length (List.filter (index_hit (Js.toLowerCase (Js.trim " Structure ")))
                   (Loaders.buildSearchEntries (Some [ILE; LII; ESE])
                      (Some Loaders.buildGlossary)))
         <= 10)%nat ->
        In e' (App.results None (Some [ILE; LII; ESE]) (Some Loaders.buildGlossary)
                 (Some [])
                 (Some (Loaders.buildSearchEntries (Some [ILE; LII; ESE])
                          (Some Loaders.buildGlossary)))
                 " Structure ")).
Proof.
  apply (fallback_hits_are_index_hits [ILE; LII; ESE] Loaders.buildGlossary []
           " Structure ").
  vm_compute. left. reflexivity.
Defined.

Lemma filter_sublist {A : Type} (f : A -> bool) (l : list A) :
  sublist (List.filter f l) l.
Proof.
  induction l as [| x l IH]; [constructor |].
  cbn [List.filter]. destruct (f x); by constructor.
Qed.

Lemma Forall_firstn {A : Type} (P : A -> Prop) (n : nat) (l : list A) :
  Forall P l -> Forall P (firstn n l).
Proof. apply Forall_take. Qed.

(** X19: whatever the index holds, the indexed search returns at most ten
    entries, all of them entries of the index in the order of the index, and
    each with a haystack that contains the trimmed, lower-cased query. *)
Theorem indexed_results_bounded_and_ordered (error : option string)
    (types : option (list TypeRecord)) (glossary : option (list Gloss.t))
    (relations : option (list Relation.t)) (search : list Entry.t)
    (query : string) :
  let r := App.results error types glossary relations (Some search) query in
  (length r <= 10)%nat
  /\ sublist r search
  /\ Forall (fun e => index_hit (Js.toLowerCase (Js.trim query)) e = true) r.
Proof.
  assert (Hnil : (length (@nil Entry.t) <= 10)%nat /\ sublist [] search
                 /\ Forall (fun e => index_hit (Js.toLowerCase (Js.trim query)) e = true) [])
    by (repeat split; [cbn; lia | apply sublist_nil_l | constructor]).
  unfold App.results.
  destruct types as [types |], glossary as [glossary |], relations as [relations |];
    try exact Hnil.
  destruct (Js.truthy_str error); [exact Hnil |]. cbv zeta.
  set (q := Js.toLowerCase (Js.trim query)).
  destruct (Js.nonempty q); cbn [negb]; [| exact Hnil].
  change (fun e : Entry.t => match Entry.haystack e with
                             | Some h => Js.nonempty h && Js.includes h q
                             | None => false
                             end) with (index_hit q).
  split; [apply firstn_le_length |]. split.
  - etrans; [apply sublist_take | apply filter_sublist].
  - apply Forall_firstn, List.Forall_forall. intros e He.
    by apply filter_In in He as [_ He].
Qed.

Lemma trimStart_blank (s : string) : blank s = true -> Js.trimStart s = "".
Proof.
  induction s as [| c s IH]; [done |].
  cbn [blank Js.trimStart]. intros [Hc Hs]%andb_prop. rewrite Hc. by apply IH.
Qed.

(** X20: a query of white space only gives no results, whatever is loaded
    and whether or not there is an index. *)
Theorem blank_query_no_results (error : option string)
    (types : option (list TypeRecord)) (glossary : option (list Gloss.t))
    (relations : option (list Relation.t)) (search : option (list Entry.t))
    (query : string) :
  blank query = true ->
  App.results error types glossary relations search query = [].
Proof.
  intros H. unfold App.results.
  destruct types, glossary, relations; try reflexivity.
  destruct (Js.truthy_str error); [reflexivity |].
  unfold Js.trim. rewrite (trimStart_blank _ H). reflexivity.
Qed.

Lemma blank_query_no_results_witness :
  App.results None (Some [ILE; LII]) (Some Loaders.buildGlossary) (Some [])
    None "   " = [].
Proof. apply blank_query_no_results. reflexivity. Defined.

(** ** Marking the match in a search result *)

Lemma str_indexOf_spec (s q : string) :
  (Js.str_indexOf s q = -1 /\ Js.includes s q = false)
  \/ (0 <= Js.str_indexOf s q
      /\ String.prefix q (Js.drop (Z.to_nat (Js.str_indexOf s q)) s) = true
      /\ Js.includes s q = true).
Proof.
  induction s as [| c s IH]; cbn [Js.str_indexOf Js.includes].
  - destruct (String.prefix q "") eqn:Hp; [right | left]; by rewrite ?Hp.
  - destruct (String.prefix q (String c s)) eqn:Hp.
    + right. by rewrite ?Hp.
    + cbn [orb]. destruct IH as [[-> Hn] | (H0 & Hpre & Hin)].
      * left. done.
      * right. destruct (Z.ltb_spec (Js.str_indexOf s q) 0) as [| _]; [lia |].
        split; [lia |]. split; [| done].
        replace (Z.to_nat (Js.str_indexOf s q + 1))
          with (S (Z.to_nat (Js.str_indexOf s q))) by lia.
        exact Hpre.
Qed.

Lemma substring_drop (n m : nat) (s : string) :
  String.substring n m s = String.substring 0 m (Js.drop n s).
Proof.
  revert s. induction n as [| n IH]; intros s; [by destruct s |].
  destruct s as [| c s]; [by destruct m |].
  cbn [String.substring Js.drop]. apply IH.
Qed.

Lemma substring_then_drop (n : nat) (s : string) :
  String.substring 0 n s +:+ Js.drop n s = s.
Proof.
  revert s. induction n as [| n IH]; intros [| c s]; try done.
  cbn [String.substring Js.drop]. by rewrite append_cons, IH.
Qed.

Lemma drop_drop (n m : nat) (s : string) :
  Js.drop m (Js.drop n s) = Js.drop (n + m) s.
Proof.
  revert s. induction n as [| n IH]; intros s; [by destruct s |].
  destruct s as [| c s]; [by destruct m |].
  cbn [Js.drop Nat.add]. apply IH.
Qed.

(** X21: when the search box marks a match in a text, the three pieces it
    renders put together are the text, and the marked piece is the query up
    to the case of letters; it leaves the text unmarked exactly when the
    query is empty or does not occur in the text, case ignored. *)
Theorem highlight_pieces (text q : string) :
  match App.highlight text q with
  | Some (before, match_, after) =>
      before +:+ match_ +:+ after = text
      /\ Js.toLowerCase match_ = Js.toLowerCase q
      /\ q <> ""
  | None =>
      q = "" \/ Js.includes (Js.toLowerCase text) (Js.toLowerCase q) = false
  end.
Proof.
  unfold App.highlight, Js.nonempty. rewrite negb_involutive.
  destruct (String.eqb_spec q "") as [-> | Hq]; [by left |]. cbv zeta.
  destruct (str_indexOf_spec (Js.toLowerCase text) (Js.toLowerCase q))
    as [[-> Hn] | (H0 & Hpre & _)]; [by right |].
  set (idx := Js.str_indexOf _ _) in *.
  destruct (Z.eqb_spec idx (-1)) as [| _]; [lia |].
  unfold Js.slice, Js.slice_from.
  replace (Z.to_nat idx + String.length q - Z.to_nat idx)%nat
    with (String.length q) by lia.
  rewrite Nat.sub_0_r, (substring_drop (Z.to_nat idx)), <- drop_drop.
  split; [| split; [| exact Hq]].
  - by rewrite substring_then_drop, substring_then_drop.
  - apply String.prefix_correct in Hpre.
    unfold Js.toLowerCase in *.
    rewrite map_chars_length, <- map_chars_drop, <- map_chars_substring0 in Hpre.
    exact Hpre.
Qed.

(** ** Keyboard selection in the search box *)

Lemma item_at_In {A : Type} (l : list A) (i : Z) (x : A) :
  App.item_at l i = Some x -> In x l.
Proof.
  unfold App.item_at. destruct (i <? 0)%Z; [done |].
  intros H. apply list_elem_of_In. by eapply list_elem_of_lookup_2.
Qed.

(** X22: a key pressed in the search box hands over a result only on Enter,
    and then always one of the results shown, also when the selection points
    outside them; the arrow keys keep a selection that is inside the results
    inside them; with no results shown no key does anything. *)
Theorem onKeyDown_selection (results : list Entry.t) (key : string)
    (st : App.TopBarState) :
  let len := Z.of_nat (length results) in
  let out := App.onKeyDown results key st in
  (forall e, out.2 = Some e -> key = "Enter" /\ In e results)
  /\ (key = "Enter" -> results <> [] -> out.2 <> None)
  /\ (0 <= App.selected st < len -> 0 <= App.selected out.1 < len)
  /\ (results = [] -> out = (st, None)).
Proof.
  cbv zeta. unfold App.onKeyDown.
  destruct results as [| r0 results]; [cbn; repeat split; (done || lia) |].
  change (length (r0 :: results) =? 0)%nat with false. cbv iota.
  split; [| split; [| split; [| done]]].
  - intros e.
    destruct (String.eqb_spec key "ArrowDown"); [done |].
    destruct (String.eqb_spec key "ArrowUp"); [done |].
    destruct (String.eqb_spec key "Enter") as [-> |];
      [| by destruct (String.eqb key "Escape")].
    cbn [snd]. destruct (App.item_at _ _) as [item |] eqn:Hitem.
    + intros [= <-]. split; [done |]. by eapply item_at_In.
    + intros [= <-]. split; [done |]. by left.
  - intros -> _. cbn. by destruct (App.item_at _ _).
  - intros H.
    destruct (String.eqb key "ArrowDown"); [cbn [fst App.selected] in *; lia |].
    destruct (String.eqb key "ArrowUp"); [cbn [fst App.selected] in *; lia |].
    destruct (String.eqb key "Enter"); [exact H |].
    destruct (String.eqb key "Escape"); exact H.
Qed.

(** ** Lookup tables built from the types *)

(** X23: the tables of the function explorer group the types by leading and
    by creative function: under a key stand exactly the types with that
    value, in the order of the list, and a value no type has is no key, so no
    group is empty.  Building a table fails exactly when the value of some
    type is the name of a property that objects inherit. *)
Theorem groupBy_lookup (key : TypeRecord -> string) (types : list TypeRecord) :
  match App.groupBy key types with
  | Normal m =>
      forallb (fun t => Js.own_name (key t)) types = true
      /\ forall k,
           m !! k = match List.filter (fun t => String.eqb (key t) k) types with
                    | [] => None
                    | g => Some g
                    end
  | Throw _ => forallb (fun t => Js.own_name (key t)) types = false
  end.
Proof.
  induction types as [| t l IH] using rev_ind; [by split |].
  unfold App.groupBy in *. rewrite fold_left_app. cbn [fold_left].
  rewrite forallb_app. cbn [forallb]. rewrite andb_true_r.
  destruct (fold_left _ l (Normal ∅)) as [m | e]; cbn [mbind Js.completion_bind];
    [| by rewrite IH].
  destruct IH as [Hown Hm]. rewrite Hown. cbn [andb].
  assert (Hstep : forall g k,
            (<[key t := g]> m) !! k
            = if String.eqb (key t) k then Some g else m !! k).
  { intros g k. destruct (String.eqb_spec (key t) k) as [<- | Hne].
    - by rewrite lookup_insert_eq.
    - by rewrite lookup_insert_ne. }
  unfold Js.get. rewrite (Hm (key t)).
  destruct (List.filter (fun t0 => String.eqb (key t0) (key t)) l) as [| x g] eqn:Hf.
  - destruct (Js.own_name (key t)); [| done]. split; [done |]. intros k.
    rewrite Hstep, List.filter_app. cbn [List.filter].
    destruct (String.eqb_spec (key t) k) as [<- | Hne].
    + by rewrite Hf.
    + by rewrite Hm, app_nil_r.
  - assert (Hx : In x l /\ String.eqb (key x) (key t) = true).
    { apply (filter_In (fun t0 => String.eqb (key t0) (key t))). rewrite Hf. by left. }
    destruct Hx as [Hx Hk%String.eqb_eq].
    rewrite forallb_forall in Hown. specialize (Hown x Hx). rewrite Hk in Hown.
    split; [done |]. intros k.
    rewrite Hstep, List.filter_app. cbn [List.filter].
    destruct (String.eqb_spec (key t) k) as [<- | Hne].
    + by rewrite Hf.
    + by rewrite Hm, app_nil_r.
Qed.

Lemma byCode_snoc (l : list TypeRecord) (t : TypeRecord) :
  App.byCode (l ++ [t]) = <[code t := t]> (App.byCode l).
Proof. unfold App.byCode. by rewrite fold_left_app. Qed.

(** Under a code stands the last record of the list that has it. *)
Lemma byCode_lookup (types : list TypeRecord) (c : string) :
  App.byCode types !! c
  = last (List.filter (fun t => String.eqb (code t) c) types).
Proof.
  induction types as [| t l IH] using rev_ind; [done |].
  rewrite byCode_snoc, List.filter_app. cbn [List.filter].
  destruct (String.eqb_spec (code t) c) as [<- | Hne].
  - by rewrite lookup_insert_eq, last_snoc.
  - rewrite lookup_insert_ne by done. by rewrite IH, app_nil_r.
Qed.

Lemma byCode_dom (types : list TypeRecord) :
  dom (App.byCode types) = (list_to_set (map code types) : gset string).
Proof.
  induction types as [| t l IH] using rev_ind;
    [unfold App.byCode; cbn [fold_left map]; by rewrite dom_empty_L |].
  rewrite byCode_snoc, dom_insert_L, IH, map_app, list_to_set_app_L.
  cbn [map]. rewrite list_to_set_cons, list_to_set_nil, (right_id_L ∅ (∪)).
  apply (comm_L (∪)).
Qed.

Lemma size_list_to_set_cons (x : string) (l : list string) :
  size (list_to_set (x :: l) : gset string)
  = if decide (x ∈ l) then size (list_to_set l : gset string)
    else S (size (list_to_set l : gset string)).
Proof.
  rewrite list_to_set_cons. destruct (decide (x ∈ l)) as [Hin | Hnin].
  - f_equal. apply leibniz_equiv. intros y.
    rewrite elem_of_union, elem_of_singleton, elem_of_list_to_set.
    split; [intros [-> | H]; done | by right].
  - rewrite size_union, size_singleton; [done |].
    intros y Hy%elem_of_singleton Hl%elem_of_list_to_set. by subst.
Qed.

Lemma size_list_to_set_le (l : list string) :
  (size (list_to_set l : gset string) <= length l)%nat.
Proof.
  induction l as [| x l IH]; [by rewrite list_to_set_nil, size_empty |].
  rewrite size_list_to_set_cons. cbn [length]. destruct (decide _); lia.
Qed.

Lemma size_list_to_set_NoDup (l : list string) :
  size (list_to_set l : gset string) = length l <-> List.NoDup l.
Proof.
  split.
  - induction l as [| x l IH]; [constructor |].
    rewrite size_list_to_set_cons. cbn [length]. intros H.
    pose proof (size_list_to_set_le l).
    destruct (decide (x ∈ l)) as [Hin | Hnin]; [lia |].
    constructor; [by rewrite <- list_elem_of_In | apply IH; lia].
  - intros H. apply size_list_to_set. by apply NoDup_ListNoDup.
Qed.

(** X24: the table [byCode] has as many keys as there are types exactly when
    no two types share a code, which is what the development check on its
    size tests; and then looking up the code of a type of the list gives
    that type. *)
Theorem byCode_size_iff_distinct_codes (types : list TypeRecord) :
  (size (App.byCode types) = length types <-> List.NoDup (map code types))
  /\ (List.NoDup (map code types) ->
      forall t, In t types -> App.byCode types !! code t = Some t).
Proof.
  split.
  - rewrite <- size_dom, byCode_dom, <- (length_map code).
    apply size_list_to_set_NoDup.
  - intros Hnd t Hin. rewrite byCode_lookup.
    induction types as [| x l IH]; [done |].
    cbn [map] in Hnd. apply List.NoDup_cons_iff in Hnd as [Hx Hnd].
    cbn [List.filter]. destruct Hin as [-> | Hin].
    + rewrite String.eqb_refl.
      assert (Hnone : List.filter (fun t0 => String.eqb (code t0) (code t)) l = []).
      { clear -Hx. induction l as [| y l IH]; [done |].
        cbn [List.filter]. cbn [map In] in Hx.
        destruct (String.eqb_spec (code y) (code t)) as [E | _]; [tauto |].
        apply IH. tauto. }
      by rewrite Hnone.
    + destruct (String.eqb_spec (code x) (code t)) as [E | _].
      * exfalso. apply Hx. rewrite E. by apply in_map.
      * by apply IH.
Qed.

Lemma filter_last_In {A : Type} (f : A -> bool) (l : list A) (x : A) :
  last (List.filter f l) = Some x -> In x l /\ f x = true.
Proof.
  intros (l' & E)%last_Some. apply filter_In. rewrite E.
  apply in_or_app. right. by left.
Qed.

(** X25: the page of a type takes as its type the record the table holds
    under the code asked for; for a code no type has, the first record of the
    list, whose code is then another than the one asked for; it is left
    without a record only when the list is empty, or when the code, which no
    type has, is the name of a property that objects inherit. *)
Theorem TypeDetail_shows_a_type (types : list TypeRecord) (c : string) :
  match App.TypeDetail_t types c with
  | Js.Own t =>
      In t types
      /\ (code t = c
          \/ (~ In c (map code types) /\ types !! 0%nat = Some t /\ code t <> c))
  | Js.Inherited => ~ In c (map code types) /\ In c Js.Object_prototype_names
  | Js.Undefined => types = []
  end.
Proof.
  unfold App.TypeDetail_t, Js.get. rewrite byCode_lookup.
  destruct (last _) as [t |] eqn:E.
  - apply filter_last_In in E as [Hin Hc]. split; [done |]. left.
    by apply String.eqb_eq.
  - apply last_None in E.
    assert (Hno : ~ In c (map code types)).
    { intros (t & <- & Hin)%in_map_iff.
      assert (In t (List.filter (fun t0 => String.eqb (code t0) (code t)) types))
        by (apply filter_In; split; [done | apply String.eqb_refl]).
      by rewrite E in H. }
    unfold Js.own_name. destruct (existsb _ _) eqn:Hp; cbn [negb].
    + split; [done |]. apply existsb_exists in Hp as (x & Hx & ->%String.eqb_eq).
      exact Hx.
    + destruct types as [| t l]; [done |]. cbn [lookup list_lookup].
      split; [by left |]. right. split; [done |]. split; [done |].
      intros <-. apply Hno. by left.
Qed.

(** ** The dual of a type *)

Lemma DualityList_other_code (c d : string) :
  App.DualityList_other c = Some d -> In c Loaders.TYPE_CODES.
Proof.
  unfold App.DualityList_other, App.DualityList_pairs. cbn [List.find].
  repeat match goal with
         | |- context [String.eqb ?x c] =>
             destruct (String.eqb_spec x c) as [<- | _];
             [intros _; vm_compute; tauto |]
         end.
  cbn. done.
Qed.

(** X26: the two components that show the dual of a type find it in
    different ways, one in its own table of pairs, the other by searching the
    keys of the duality set for the code; for the relations the loader
    builds, whenever the first finds a dual the second finds the same one,
    and the dual's dual is the type itself. *)
Theorem dual_lookup_agrees (c d : string) :
  App.DualityList_other c = Some d ->
  App.TypeDetail_dualCode (App.DUALS_in_order Loaders.buildRelations) c = Some d
  /\ App.DualityList_other d = Some c.
Proof.
  intros H. pose proof (DualityList_other_code _ _ H) as Hin.
  cbn in Hin. decompose [or] Hin; try done; subst c;
    vm_compute in H; injection H as <-; vm_compute; done.
Qed.

Lemma dual_lookup_agrees_witness :
  App.TypeDetail_dualCode (App.DUALS_in_order Loaders.buildRelations) "EII"
  = Some "LSE"
  /\ App.DualityList_other "LSE" = Some "EII".
Proof. apply dual_lookup_agrees. reflexivity. Defined.

(** ** The development checks on the dual keys *)

Lemma dedup_keys_In (k : string) (seen l : list string) :
  In k (App.dedup_keys seen l) -> In k l.
Proof.
  revert seen. induction l as [| x l IH]; intros seen; [done |].
  cbn [App.dedup_keys]. destruct (existsb _ seen).
  - intros H. right. by eapply IH.
  - intros [-> | H]; [by left | right; by eapply IH].
Qed.

Lemma sort_sorted_pair (x y : string) : Js.sort (Js.sort [x; y]) = Js.sort [x; y].
Proof.
  rewrite (sort_pair x y). destruct (String.ltb y x) eqn:E; rewrite sort_pair.
  - unfold String.ltb in *. rewrite String.compare_antisym.
    by destruct (String.compare y x).
  - by rewrite E.
Qed.

Lemma split_join_pair (x y : string) :
  no_char "-" x = true -> no_char "-" y = true ->
  Js.split "-" (Js.join "-" [x; y]) = [x; y].
Proof.
  intros Hx Hy. unfold Js.join.
  change (String.concat "-" [x; y]) with (x +:+ String "-" y).
  by rewrite split_app_sep, split_no_sep.
Qed.

(** X27: the development checks split every key of the duality set at the
    hyphen and expect two parts that are in sorted order; both checks pass on
    every key, whatever relations were loaded, as long as no code of a
    duality relation contains a hyphen. *)
Theorem dual_keys_pass_devtest (relations : list Relation.t) (k : string) :
  hyphen_free relations = true ->
  In k (App.DUALS_in_order relations) ->
  App.devtest_dual_key k = true.
Proof.
  intros Hfree Hk. apply dedup_keys_In in Hk.
  apply in_map_iff in Hk as (r & <- & Hr). apply filter_In in Hr as [Hr Hname].
  unfold hyphen_free in Hfree. rewrite forallb_forall in Hfree.
  specialize (Hfree r Hr). rewrite Hname in Hfree. cbn [negb orb] in Hfree.
  apply andb_prop in Hfree as [Ha Hb].
  unfold App.devtest_dual_key. cbv zeta.
  assert (Hsplit : Js.split "-" (Js.join "-" (Js.sort [Relation.a r; Relation.b r]))
                   = Js.sort [Relation.a r; Relation.b r]).
  { rewrite sort_pair. destruct (String.ltb _ _); by apply split_join_pair. }
  rewrite Hsplit, sort_sorted_pair, String.eqb_refl, sort_pair.
  by destruct (String.ltb _ _).
Qed.

Lemma dual_keys_pass_devtest_witness : App.devtest_dual_key "EII-LSE" = true.
Proof.
  apply (dual_keys_pass_devtest Loaders.buildRelations); [reflexivity |].
  vm_compute. tauto.
Defined.

(** ** The lead paragraph of a page *)

(** X28: the overview taken from a page is never an empty text and is the
    normalised text of one of its paragraphs; there is none exactly when
    every paragraph is empty after normalising; and when some paragraph has
    sixty characters or more, the overview is the first such paragraph even
    if shorter ones come before it. *)
Theorem extractLeadParagraph_result (normalize : string -> string)
    (paragraphs : list (option string)) :
  match Loaders.extractLeadParagraph normalize paragraphs with
  | Some text =>
      text <> ""
      /\ (exists p, In p paragraphs /\ text = Loaders.paragraph_text normalize p)
      /\ ((String.length text < 60)%nat ->
          Forall (fun p => (String.length (Loaders.paragraph_text normalize p) < 60)%nat)
                 paragraphs)
      /\ ((60 <= String.length text)%nat ->
          exists before p after,
            paragraphs = (before ++ p :: after)%list
            /\ text = Loaders.paragraph_text normalize p
            /\ Forall (fun p' => (String.length (Loaders.paragraph_text normalize p') < 60)%nat)
                      before)
  | None =>
      Forall (fun p => Loaders.paragraph_text normalize p = "") paragraphs
  end.
Proof.
  unfold Loaders.extractLeadParagraph.
  set (long := fun p => (60 <=? String.length (Loaders.paragraph_text normalize p))%nat).
  set (some := fun p => Js.nonempty (Loaders.paragraph_text normalize p)).
  destruct (List.find long paragraphs) as [p |] eqn:Hlong.
  - pose proof (find_some _ _ Hlong) as [Hin Hp]. unfold long in Hp.
    apply Nat.leb_le in Hp. split; [| split; [| split]].
    + intros E. rewrite E in Hp. cbn in Hp. lia.
    + by exists p.
    + lia.
    + intros _. clear Hin Hp. revert Hlong.
      induction paragraphs as [| x l IH]; [done |].
      cbn [List.find]. destruct (long x) eqn:Hx.
      * intros [= ->]. exists [], p, l. by repeat split.
      * intros (before & p' & after & -> & E & Hb)%IH.
        exists (x :: before), p', after. repeat split; [done |].
        constructor; [| done]. unfold long in Hx. by apply Nat.leb_gt in Hx.
  - assert (Hshort : Forall (fun p => (String.length (Loaders.paragraph_text normalize p) < 60)%nat)
                            paragraphs).
    { apply List.Forall_forall. intros p Hp.
      apply (find_none _ _ Hlong) in Hp. unfold long in Hp. by apply Nat.leb_gt in Hp. }
    destruct (List.find some paragraphs) as [p |] eqn:Hsome.
    + pose proof (find_some _ _ Hsome) as [Hin Hp]. unfold some, Js.nonempty in Hp.
      split; [| split; [| split]].
      * intros E. rewrite E in Hp. done.
      * by exists p.
      * done.
      * intros Hlen. exfalso. rewrite List.Forall_forall in Hshort.
        specialize (Hshort p Hin). lia.
    + apply List.Forall_forall. intros p Hp.
      apply (find_none _ _ Hsome) in Hp. unfold some, Js.nonempty in Hp.
      apply negb_false_iff in Hp. by apply String.eqb_eq.
Qed.

(** ** From a search result to the page *)

Lemma type_route_round_trip (c : string) :
  segment c = true -> Js.toUpperCase c = c ->
  App.hashToRoute (Some (App.routeToHash (App.Route.mk "type" (Some c) None None None)))
  = App.Route.mk "type" (Some c) None None None.
Proof.
  intros Hc Hu. pose proof Hc as [Hne Hno]%andb_prop.
  unfold App.hashToRoute. cbv zeta.
  replace (App.strip_hash _) with ("type" +:+ String "/" c);
    [| unfold App.routeToHash; cbn [App.Route.name App.Route.code Js.truthy_str];
       rewrite Hne; reflexivity ].
  rewrite split_app_sep by reflexivity. rewrite (split_no_sep _ _ Hno).
  cbn [List.filter]. rewrite Hne.
  change (Js.nonempty "type") with true. cbv iota.
  cbn [lookup list_lookup]. change (String.eqb "type" "") with false.
  change (existsb (String.eqb "type") App.PLAIN_ROUTES) with false.
  change (String.eqb "type" "type") with true. cbv iota.
  cbn [Js.truthy_str fmap option_fmap option_map]. by rewrite Hne, Hu.
Qed.

Lemma glossary_route_round_trip (f : string) :
  segment f = true ->
  App.hashToRoute (Some (App.routeToHash (App.Route.mk "glossary" None (Some f) None None)))
  = App.Route.mk "glossary" None (Some f) None None.
Proof.
  intros Hf. pose proof Hf as [Hne Hno]%andb_prop.
  unfold App.hashToRoute. cbv zeta.
  replace (App.strip_hash _) with ("glossary" +:+ String "/" f);
    [| unfold App.routeToHash; cbn [App.Route.name App.Route.focus Js.truthy_str];
       rewrite Hne; reflexivity ].
  rewrite split_app_sep by reflexivity. rewrite (split_no_sep _ _ Hno).
  cbn [List.filter]. rewrite Hne.
  change (Js.nonempty "glossary") with true. cbv iota.
  cbn [lookup list_lookup]. change (String.eqb "glossary" "") with false.
  change (existsb (String.eqb "glossary") App.PLAIN_ROUTES) with false.
  change (String.eqb "glossary" "type") with false.
  change (String.eqb "glossary" "glossary") with true. reflexivity.
Qed.

(** Where a result comes from when the index, if any, is the one built from
    the loaded data. *)
Lemma results_origin (types : list TypeRecord) (glossary : list Gloss.t)
    (relations : list Relation.t) (indexed : bool) (query : string) (e : Entry.t) :
  In e (App.results None (Some types) (Some glossary) (Some relations)
          (if indexed
           then Some (Loaders.buildSearchEntries (Some types) (Some glossary))
           else None)
          query) ->
  (exists t, In t types /\ Entry.kind e = "type" /\ Entry.id e = code t)
  \/ (exists g, In g glossary /\ Entry.kind e = "gloss" /\ Entry.id e = Gloss.term g).
Proof.
  unfold App.results. cbn [Js.truthy_str]. cbv zeta.
  destruct (Js.nonempty _); cbn [negb]; [| by destruct indexed].
  destruct indexed.
  - intros H%In_firstn. apply filter_In in H as [H _].
    rewrite buildSearchEntries_entries in H.
    apply in_app_or in H as [H | H]; apply in_map_iff in H as (x & <- & Hx);
      [left | right]; by exists x.
  - intros H%In_firstn.
    apply in_app_or in H as [H | H]; apply in_map_iff in H as (x & <- & Hx);
      apply filter_In in Hx as [Hx _]; [left | right]; by exists x.
Qed.

(** X29: the route that the [onResult] handler passes to [navigate] for a
    search result is the page of what was found.  When every type code is an
    upper-case path segment in ASCII and every glossary term a path segment,
    each result of the search, with the index built from the loaded data or
    without an index, is given a route that [hashToRoute] reads back
    unchanged from the hash [routeToHash] writes for it; for a type it is the
    type page of a code under which [TypeDetail] finds a type with that very
    code, for a glossary entry the glossary focused on its term. *)
Theorem search_result_opens_its_page (types : list TypeRecord)
    (glossary : list Gloss.t) (relations : list Relation.t) (indexed : bool)
    (query : string) (e : Entry.t) :
  codes_ok types = true ->
  terms_ok glossary = true ->
  In e (App.results None (Some types) (Some glossary) (Some relations)
          (if indexed
           then Some (Loaders.buildSearchEntries (Some types) (Some glossary))
           else None)
          query) ->
  exists r,
    App.onResult e = Some r
    /\ App.hashToRoute (Some (App.routeToHash r)) = r
    /\ ((App.Route.name r = "type"
         /\ exists t, App.Route.code r = Some (code t)
                      /\ App.TypeDetail_t types (code t) = Js.Own t)
        \/ (App.Route.name r = "glossary"
            /\ exists g, In g glossary /\ App.Route.focus r = Some (Gloss.term g))).
Proof.
  intros Hcodes Hterms He. unfold codes_ok in Hcodes. unfold terms_ok in Hterms.
  rewrite forallb_forall in Hcodes, Hterms.
  apply results_origin in He as [(t & Hin & Hk & Hid) | (g & Hin & Hk & Hid)].
  - unfold App.onResult. rewrite Hk, Hid. cbn [String.eqb Ascii.eqb Bool.eqb andb].
    cbv iota. eexists. split; [reflexivity |].
    pose proof (Hcodes _ Hin) as [[Hseg _]%andb_prop Hup%String.eqb_eq]%andb_prop.
    split; [by apply type_route_round_trip |]. left. split; [done |].
    cbn [App.Route.code].
    destruct (last (List.filter (fun t0 => String.eqb (code t0) (code t)) types))
      as [t' |] eqn:E.
    + pose proof (filter_last_In _ _ _ E) as [_ E'%String.eqb_eq]. exists t'.
      split; [by rewrite E' |].
      unfold App.TypeDetail_t, Js.get. by rewrite byCode_lookup, E', E.
    + apply last_None in E.
      assert (In t (List.filter (fun t0 => String.eqb (code t0) (code t)) types))
        by (apply filter_In; split; [done | apply String.eqb_refl]).
      by rewrite E in H.
  - unfold App.onResult. rewrite Hk, Hid. cbn [String.eqb Ascii.eqb Bool.eqb andb].
    cbv iota. eexists. split; [reflexivity |].
    split; [by apply glossary_route_round_trip, Hterms |].
    right. split; [done |]. by exists g.
Qed.

Lemma search_result_opens_its_page_witness :
  exists r,
    App.onResult (type_entry LII) = Some r
    /\ App.hashToRoute (Some (App.routeToHash r)) = r
    /\ ((App.Route.name r = "type"
         /\ exists t, App.Route.code r = Some (code t)
                      /\ App.TypeDetail_t [ILE; LII; ESE] (code t) = Js.Own t)
        \/ (App.Route.name r = "glossary"
            /\ exists g, In g Loaders.buildGlossary
                         /\ App.Route.focus r = Some (Gloss.term g))).
Proof.
  apply (search_result_opens_its_page [ILE; LII; ESE] Loaders.buildGlossary []
           true "logical int" (type_entry LII)).
  - reflexivity.
  - reflexivity.
  - vm_compute. left. reflexivity.
Defined.

(** ** The live loader *)

Section LiveFacts.
Variable net : string -> Scraper.Network.
Variables api pageBase : option string.
Variable json : string -> Js.completion (option Scraper.MwJson).
Variable params : list (string * string) -> string.
Variable encode : string -> string.
Variable paragraphs : string -> list (option string).
Variable normalize : string -> string.

Local Abbreviation fetchType :=
  (Live.fetchType net api pageBase json params encode paragraphs normalize).

(** X30: the live loader asks the network at most once for a type; for a
    code that is not in its table it fails at once, without asking; a record
    it returns carries the code asked for and the table's data for it, an
    overview of 1 to 500 characters and a title; and it stays pending only
    when its one request is never answered. *)
Theorem fetchType_result (c : string) :
  Js.own_name c = true ->
  (length (fetchType c).2 <= 1)%nat
  /\ (Loaders.TYPE_INFO !! c = None ->
      fetchType c = (Live.Settled (Throw ("Unknown type code: " +:+ c)), []))
  /\ (forall t, (fetchType c).1 = Live.Settled (Normal t) ->
        length (fetchType c).2 = 1%nat
        /\ code t = c /\ canonical t
        /\ (1 <= String.length (overview t) <= 500)%nat
        /\ is_Some (title t))
  /\ ((fetchType c).1 = Live.Pending ->
      exists url, (fetchType c).2 = [url] /\ net url = Scraper.Hangs).
Proof.
  intros _. unfold Live.fetchType.
  destruct (Loaders.TYPE_INFO !! c) as [info |] eqn:Hinfo;
    [| cbn; repeat split; (done || lia) ].
  cbv zeta. set (pageTitle := default c _). set (url := _ +:+ _).
  destruct (net url) as [after response | after msg |] eqn:Hnet; cbn [fst snd length].
  - split; [lia |]. split; [done |]. split; [| done].
    intros t [= Ht]. split; [done |]. revert Ht.
    destruct (Scraper.ok response); cbn [negb]; [| done].
    destruct (json (Scraper.body response)) as [j | e];
      cbn [mbind Js.completion_bind]; [| done].
    destruct (j ≫= Scraper.parse) as [parsed |]; [| done].
    destruct (Js.truthy_str (Scraper.text parsed)); cbn [negb]; [| done].
    set (ov := default "" _). intros [= <-].
    cbn [code overview title].
    split; [done |]. split; [by apply type_info_canonical |].
    assert (Hov : ov <> "").
    { unfold ov, Js.or.
      destruct (Live.extractLeadParagraph paragraphs normalize _) as [s |]; [| done].
      destruct (String.eqb_spec s ""); done. }
    split.
    + split; [| apply length_substring_le].
      pose proof (substring_nonempty 499 ov Hov) as Hne.
      destruct (String.substring 0 500 ov); [done | cbn; lia].
    + unfold Js.or. destruct (Scraper.displaytitle parsed) as [d |]; [| done].
      by destruct (String.eqb d "").
  - split; [lia |]. by repeat split.
  - split; [lia |]. split; [done |]. split; [done |]. intros _. by exists url.
Qed.

End LiveFacts.

Lemma fetchType_result_witness :
  let out :=
    Live.fetchType (fun _ => Scraper.Responds 35 (Scraper.mkResponse true 200 "{}"))
      None (Some "  https://example.org/wiki/  ") wiki_json query_string id
      (fun _ => [Some "  A  type. "]) Js.trim "LII" in
  (length out.2 <= 1)%nat
  /\ (Loaders.TYPE_INFO !! "LII" = None ->
      out = (Live.Settled (Throw ("Unknown type code: " +:+ "LII")), []))
  /\ (forall t, out.1 = Live.Settled (Normal t) ->
        length out.2 = 1%nat
        /\ code t = "LII" /\ canonical t
        /\ (1 <= String.length (overview t) <= 500)%nat
        /\ is_Some (title t))
  /\ (out.1 = Live.Pending ->
      exists url, out.2 = [url]
                  /\ (fun _ => Scraper.Responds 35 (Scraper.mkResponse true 200 "{}")) url
                     = Scraper.Hangs).
Proof.
  apply (fetchType_result
           (fun _ => Scraper.Responds 35 (Scraper.mkResponse true 200 "{}"))
           None (Some "  https://example.org/wiki/  ") wiki_json query_string id
           (fun _ => [Some "  A  type. "]) Js.trim "LII").
  reflexivity.
Defined.
